(** * AK backend: profile/key storage engine

    A shallow embedding of [ak_backend_api.py] (the Flask backend of the AK
    credential vault) and the properties of its storage engine.

    Modelling conventions
    - A Python [str] is a sequence of Unicode code points, [list N].
    - A Python [bytes] is a sequence of byte values, also [list N], each
      below 256.
    - A Python [dict] with string keys is a [gmap text text]; the code only
      reads dictionaries through [sorted(d.items())], [in], [del] and
      item assignment, so insertion order is not observable.
    - The file store is a finite map from path strings to the text a file
      holds: a path string stands for the file it denotes, and different
      strings are taken to denote different files.  That is so for the
      paths built from names without a path separator, which lie directly
      in the profiles directory; the properties that compare the files of
      different names are stated for such names.
    - Directories are not part of the store.  The configuration
      directories are created by [AKConfig.__init__] and never removed, so
      a file directly inside the profiles directory can be created unless
      its name is one that no file can have: one with a NUL, of more than
      255 bytes, or that the file system encoding cannot encode.  Whether a
      file can be created anywhere else depends on directories that the
      program does not make; the field [creatable] of the state says so.
    - Opening a file for writing fails when the file does not exist and
      cannot be created; the [except] branch of the caller then runs.
      Reading and unlinking a file of the store, and writing to an open
      file, do not fail for reasons of the environment (permissions, full
      disk).  A text-mode write still fails on a lone surrogate
      ([UnicodeEncodeError]); the locale encoding is taken to be UTF-8.
    - The transient files made with [tempfile] get fresh names and are
      unlinked before the function that made them returns; they are not
      recorded in the store.
    - The [gpg] executable is an external tool; its observable outcomes are
      the fields of the record [GPG].
    - An operation takes the state of the machine and returns its result
      together with the new state. *)

From Stdlib Require Import NArith Lia String Ascii.
From stdpp Require Import gmap list sorting.

Local Open Scope N_scope.

(** ** Text *)

Abbreviation text := (list N).

(** Code points of an ASCII literal. *)
Definition py (s : string) : text :=
  map N_of_ascii (list_ascii_of_string s).

Definition LF : N := 10.
Definition CR : N := 13.
Definition EQUALS : N := 61.
Definition HASH : N := 35.
Definition SLASH : N := 47.

(** [Py_UNICODE_ISSPACE]: the characters removed by [str.strip()]. *)
Definition isspace (c : N) : bool :=
  ((9 <=? c) && (c <=? 13)) || ((28 <=? c) && (c <=? 32))
  || (c =? 0x85) || (c =? 0xA0) || (c =? 0x1680)
  || ((0x2000 <=? c) && (c <=? 0x200A))
  || (c =? 0x2028) || (c =? 0x2029) || (c =? 0x202F) || (c =? 0x205F)
  || (c =? 0x3000).

Fixpoint lstrip (s : text) : text :=
  match s with
  | [] => []
  | c :: s' => if isspace c then lstrip s' else s
  end.

Definition rstrip (s : text) : text := rev (lstrip (rev s)).

(** [str.strip()] *)
Definition strip (s : text) : text := rstrip (lstrip s).

(** A text that begins and ends with a character [strip] keeps. *)
Definition starts_clean (s : text) : bool :=
  match s with
  | c :: _ => negb (isspace c)
  | [] => false
  end.

Definition ends_clean (s : text) : bool := starts_clean (rev s).

(** [s.split(sep)] for a one-character separator: never returns []. *)
Fixpoint split (sep : N) (s : text) : list text :=
  match s with
  | [] => [[]]
  | c :: s' =>
      if c =? sep then [] :: split sep s'
      else match split sep s' with
           | [] => [[c]]
           | w :: ws => (c :: w) :: ws
           end
  end.

(** [sep in s] together with [s.split(sep, 1)]: the text before and after
    the first separator, [None] when the separator does not occur. *)
Fixpoint split_first (sep : N) (s : text) : option (text * text) :=
  match s with
  | [] => None
  | c :: s' =>
      if c =? sep then Some ([], s')
      else match split_first sep s' with
           | Some (a, b) => Some (c :: a, b)
           | None => None
           end
  end.

(** [sep.join(parts)] for a one-character separator. *)
Fixpoint join (sep : N) (parts : list text) : text :=
  match parts with
  | [] => []
  | [p] => p
  | p :: ps => p ++ sep :: join sep ps
  end.

(** [s.startswith(c)] for a one-character prefix. *)
Definition startswith (c : N) (s : text) : bool :=
  match s with
  | c' :: _ => c' =? c
  | [] => false
  end.

Definition endswith (c : N) (s : text) : bool :=
  startswith c (rev s).

(** [str.__le__]: lexicographic order on code points. *)
Fixpoint text_leb (a b : text) : bool :=
  match a, b with
  | [], _ => true
  | _ :: _, [] => false
  | x :: a', y :: b' =>
      if x <? y then true
      else if y <? x then false
      else text_leb a' b'
  end.

Definition text_le (a b : text) : Prop := text_leb a b = true.

Global Instance text_le_dec a b : Decision (text_le a b) :=
  decide (text_leb a b = true).

(** Order on [(key, value)] tuples, as used by [sorted(keys.items())]. *)
Definition item_leb (p q : text * text) : bool :=
  if bool_decide (p.1 = q.1) then text_leb p.2 q.2 else text_leb p.1 q.1.

Definition item_le (p q : text * text) : Prop := item_leb p q = true.

Global Instance item_le_dec p q : Decision (item_le p q) :=
  decide (item_leb p q = true).

(** ** UTF-8 ([str.encode("utf-8")] and [bytes.decode("utf-8")]) *)

Definition is_surrogate (c : N) : bool := (0xD800 <=? c) && (c <=? 0xDFFF).

Definition utf8_encode_char (c : N) : option (list N) :=
  if c <? 0x80 then Some [c]
  else if c <? 0x800 then Some [0xC0 + c / 64; 0x80 + c mod 64]
  else if c <? 0x10000 then
    if is_surrogate c then None
    else Some [0xE0 + c / 4096; 0x80 + (c / 64) mod 64; 0x80 + c mod 64]
  else if c <? 0x110000 then
    Some [0xF0 + c / 262144; 0x80 + (c / 4096) mod 64;
          0x80 + (c / 64) mod 64; 0x80 + c mod 64]
  else None.

(** [None] stands for [UnicodeEncodeError]. *)
Fixpoint utf8_encode (s : text) : option (list N) :=
  match s with
  | [] => Some []
  | c :: s' =>
      match utf8_encode_char c, utf8_encode s' with
      | Some bs, Some r => Some (bs ++ r)
      | _, _ => None
      end
  end.

Definition is_cont (b : N) : bool := (0x80 <=? b) && (b <=? 0xBF).

(** Strict decoder: overlong forms, surrogates, code points above
    U+10FFFF and truncated sequences are [UnicodeDecodeError] ([None]). *)
Fixpoint utf8_decode (bs : list N) : option text :=
  match bs with
  | [] => Some []
  | b0 :: r0 =>
      if b0 <? 0x80 then cons b0 <$> utf8_decode r0
      else if b0 <? 0xC2 then None
      else if b0 <? 0xE0 then
        match r0 with
        | b1 :: r1 =>
            if is_cont b1
            then cons ((b0 - 0xC0) * 64 + (b1 - 0x80)) <$> utf8_decode r1
            else None
        | _ => None
        end
      else if b0 <? 0xF0 then
        match r0 with
        | b1 :: b2 :: r2 =>
            let c := (b0 - 0xE0) * 4096 + (b1 - 0x80) * 64 + (b2 - 0x80) in
            if is_cont b1 && is_cont b2 && (0x800 <=? c)
               && negb (is_surrogate c)
            then cons c <$> utf8_decode r2
            else None
        | _ => None
        end
      else if b0 <? 0xF5 then
        match r0 with
        | b1 :: b2 :: b3 :: r3 =>
            let c := (b0 - 0xF0) * 262144 + (b1 - 0x80) * 4096
                     + (b2 - 0x80) * 64 + (b3 - 0x80) in
            if is_cont b1 && is_cont b2 && is_cont b3
               && (0x10000 <=? c) && (c <? 0x110000)
            then cons c <$> utf8_decode r3
            else None
        | _ => None
        end
      else None
  end.

(** ** Base64 ([base64.b64encode] and [base64.b64decode]) *)

(** [table_b2a_base64]: the alphabet A-Z a-z 0-9 + / *)
Definition table_b2a (i : N) : N :=
  if i <? 26 then 65 + i
  else if i <? 52 then 71 + i
  else if i <? 62 then i - 4
  else if i =? 62 then 43
  else 47.

(** [table_a2b_base64]: [None] for a character outside the alphabet. *)
Definition table_a2b (c : N) : option N :=
  if (65 <=? c) && (c <=? 90) then Some (c - 65)
  else if (97 <=? c) && (c <=? 122) then Some (c - 71)
  else if (48 <=? c) && (c <=? 57) then Some (c + 4)
  else if c =? 43 then Some 62
  else if c =? 47 then Some 63
  else None.

(** [binascii.b2a_base64(bs, newline=False)]; the bit operations of the C
    code are written with division and remainder. *)
Fixpoint b64encode (bs : list N) : text :=
  match bs with
  | [] => []
  | [a] => [table_b2a (a / 4); table_b2a ((a mod 4) * 16); EQUALS; EQUALS]
  | [a; b] =>
      [table_b2a (a / 4); table_b2a ((a mod 4) * 16 + b / 16);
       table_b2a ((b mod 16) * 4); EQUALS]
  | a :: b :: c :: r =>
      table_b2a (a / 4) :: table_b2a ((a mod 4) * 16 + b / 16)
      :: table_b2a ((b mod 16) * 4 + c / 64) :: table_b2a (c mod 64)
      :: b64encode r
  end.

(** The loop of [binascii.a2b_base64] in its default, non-strict mode (as
    in CPython 3.11 and later): characters outside the alphabet are
    skipped, a complete pad sequence ends the parse, and leftover data
    characters are an error ([None]). *)
Fixpoint a2b_loop (quad_pos : nat) (leftchar : N) (pads : nat)
    (bin_data : list N) (ascii_data : list N) : option (list N) :=
  match ascii_data with
  | [] => match quad_pos with O => Some bin_data | _ => None end
  | this_ch :: rest =>
      if this_ch =? EQUALS then
        if bool_decide (2 ≤ quad_pos)%nat then
          if bool_decide (4 ≤ quad_pos + S pads)%nat then Some bin_data
          else a2b_loop quad_pos leftchar (S pads) bin_data rest
        else a2b_loop quad_pos leftchar pads bin_data rest
      else
        match table_a2b this_ch with
        | None => a2b_loop quad_pos leftchar pads bin_data rest
        | Some v =>
            match quad_pos with
            | 0%nat => a2b_loop 1 v 0 bin_data rest
            | 1%nat =>
                a2b_loop 2 (v mod 16) 0
                  (bin_data ++ [leftchar * 4 + v / 16]) rest
            | 2%nat =>
                a2b_loop 3 (v mod 4) 0
                  (bin_data ++ [leftchar * 16 + v / 4]) rest
            | _ =>
                a2b_loop 0 0 0 (bin_data ++ [leftchar * 64 + v]) rest
            end
        end
  end.

Definition a2b_base64 (s : list N) : option (list N) := a2b_loop 0 0 0 [] s.

(** [base64.b64decode(s)] on a [str]: the text is first encoded as ASCII
    (a non-ASCII character is a [ValueError]) and then decoded leniently. *)
Definition b64decode (s : text) : option (list N) :=
  if forallb (λ c, c <? 128) s then a2b_base64 s else None.


(** ** Key codec: the contents format [KEY=BASE64(VALUE)] *)

(** [sorted(keys.items())] *)
Definition sorted_items (keys : gmap text text) : list (text * text) :=
  merge_sort item_le (map_to_list keys).

(** One iteration of the loop of [save_profile_keys] (lines 299-301);
    [None] when [value.encode("utf-8")] raises. *)
Definition encode_line (kv : text * text) : option text :=
  match utf8_encode kv.2 with
  | Some bs => Some (kv.1 ++ EQUALS :: b64encode bs)
  | None => None
  end.

(** [encode_contents]: lines 297-303 of [save_profile_keys]. *)
Definition encode_contents (keys : gmap text text) : option text :=
  match mapM encode_line (sorted_items keys) with
  | Some [] => Some []
  | Some lines => Some (join LF lines ++ [LF])
  | None => None
  end.

(** One iteration of the parse loop of [load_profile_keys] (lines 279-290):
    the binding the iteration stores, [None] when the line is skipped. *)
Definition decode_line (line : text) : option (text * text) :=
  let line := strip line in
  if bool_decide (line = []) || startswith HASH line then None
  else
    match split_first EQUALS line with
    | Some (key, encoded_value) =>
        match b64decode encoded_value ≫= utf8_decode with
        | Some value => Some (key, value)
        | None => None
        end
    | None => None
    end.

(** The lines the parse loop iterates over: [data.strip().split("\n")]. *)
Definition contents_lines (data : text) : list text := split LF (strip data).

(** [decode_contents]: lines 277-292 of [load_profile_keys]. *)
Definition decode_contents (data : text) : gmap text text :=
  fold_left
    (λ keys line,
       match decode_line line with
       | Some (key, value) => <[key := value]> keys
       | None => keys
       end)
    (contents_lines data) ∅.

(** Key names the line format carries unchanged: no leading white space,
    no leading ["#"], no ["="] and no line feed. *)
Definition plain_key (key : text) : bool :=
  bool_decide (lstrip key = key) && bool_decide (EQUALS ∉ key)
  && bool_decide (LF ∉ key) && negb (startswith HASH key).

(** The value of the last line of [lines] that decodes to a binding of
    [key]. *)
Definition last_binding (key : text) (lines : list text) : option text :=
  last (omap (λ line,
                match decode_line line with
                | Some (k, value) => if decide (k = key) then Some value else None
                | None => None
                end) lines).

(** ** Paths and configuration *)

(** [os.path.join(a, b)] of [posixpath]. *)
Definition path_join (a b : text) : text :=
  if startswith SLASH b then b
  else if bool_decide (a = []) || endswith SLASH a then a ++ b
  else a ++ SLASH :: b.

(** [str.lower()].  Outside ASCII only the two characters whose lower case
    contains an ASCII letter are special-cased; the other cased characters
    lower to non-ASCII characters and are left as they are, which does not
    change any comparison with an ASCII word. *)
Definition lower_char (c : N) : text :=
  if (65 <=? c) && (c <=? 90) then [c + 32]
  else if c =? 0x130 then [105; 0x307]
  else if c =? 0x212A then [107]
  else [c].

Definition lower (s : text) : text := flat_map lower_char s.

(** The process environment: [os.environ] and [os.path.expanduser("~")]. *)
Record Process := {
  environ : gmap text text;
  home : text
}.

(** The external [gpg] tool, as a function of what it is given.  Each field
    is the outcome of one [subprocess.run]: [None] or [false] stands for a
    non-zero return code, a timeout or a missing executable.
    [gpg_symmetric passphrase data] is the cipher text that a successful
    [gpg --symmetric] leaves in its output file, the only file it writes;
    [gpg_decrypt passphrase cipher] is the standard output of a successful
    [gpg --decrypt].  An empty passphrase stands for none being preset. *)
Record GPG := {
  gpg_version : bool;
  gpg_symmetric : text → text → option text;
  gpg_decrypt : text → text → option text
}.

Inductive call :=
  | GpgVersion
  | GpgDecrypt (file_path : text)
  | GpgSymmetric (file_path : text).

(** The state of the machine: the file store, the log of the
    subprocesses started so far, and what the directories of the
    environment allow.  [creatable w path] tells whether a file can be
    created at [path], for a path that is not directly inside the profiles
    directory: its directory exists and accepts the file name.  No
    operation changes it. *)
Record World := {
  files : gmap text text;
  calls : list call;
  creatable : text → bool
}.

Definition log (c : call) (w : World) : World :=
  {| files := files w; calls := calls w ++ [c]; creatable := creatable w |}.

Definition set_file (path data : text) (w : World) : World :=
  {| files := <[path := data]> (files w); calls := calls w;
     creatable := creatable w |}.

Definition unlink (path : text) (w : World) : World :=
  {| files := delete path (files w); calls := calls w;
     creatable := creatable w |}.

(** [os.path.exists] on a file path. *)
Definition exists_ (w : World) (path : text) : bool :=
  bool_decide (is_Some (files w !! path)).

Record AKConfig := {
  config_dir : text;
  profiles_dir : text;
  persist_dir : text;
  vault_path : text;
  gpg_available : bool;
  force_plain : bool;
  preset_passphrase : text
}.

(** [os.getenv(name, fallback)] *)
Definition getenv (p : Process) (name : text) (fallback : text) : text :=
  match environ p !! name with
  | Some value => value
  | None => fallback
  end.

Definition _get_config_dir (p : Process) : text :=
  match environ p !! py "XDG_CONFIG_HOME" with
  | Some (c :: xdg) => path_join (c :: xdg) (py "ak")
  | _ => path_join (path_join (home p) (py ".config")) (py "ak")
  end.

Definition _check_gpg_available (gpg : GPG) (w : World) : bool * World :=
  (gpg_version gpg, log GpgVersion w).

(** [AKConfig.__init__] (lines 31-47).  Lines 45-47 create the three
    directories, which the file store does not record. *)
Definition AKConfig_init (p : Process) (gpg : GPG) (w : World)
    : AKConfig * World :=
  let config_dir := _get_config_dir p in
  let '(available, w') := _check_gpg_available gpg w in
  ({| config_dir := config_dir;
      profiles_dir := path_join config_dir (py "profiles");
      persist_dir := path_join config_dir (py "persist");
      vault_path := path_join config_dir (py "keys.env.gpg");
      gpg_available := available;
      force_plain :=
        bool_decide (lower (getenv p (py "AK_DISABLE_GPG") [])
                       ∈ [py "1"; py "true"; py "yes"]);
      preset_passphrase := getenv p (py "AK_PASSPHRASE") [] |}, w').

(** ** The file store as Python sees it *)

(** Text-mode reading applies universal newlines: ["\r\n"] and ["\r"] are
    read as ["\n"].  Text-mode writing on POSIX stores the text as is. *)
Fixpoint universal_newlines (s : text) : text :=
  match s with
  | [] => []
  | c :: s' =>
      if c =? CR then
        LF :: match s' with
              | c2 :: s'' =>
                  if c2 =? LF then universal_newlines s''
                  else universal_newlines s'
              | [] => []
              end
      else c :: universal_newlines s'
  end.

(** [open(path, "r").read()] on an existing file. *)
Definition read_text (w : World) (path : text) : option text :=
  universal_newlines <$> files w !! path.

(** [f.readlines()]: the lines with their terminators. *)
Fixpoint readlines (s : text) : list text :=
  match s with
  | [] => []
  | c :: s' =>
      if c =? LF then [LF] :: readlines s'
      else match readlines s' with
           | [] => [[c]]
           | l :: ls => (c :: l) :: ls
           end
  end.

(** Whether [f.write(s)] can encode [s] (UTF-8 locale): a lone surrogate
    raises [UnicodeEncodeError]. *)
Definition encodable (s : text) : bool :=
  bool_decide (is_Some (utf8_encode s)).

Fixpoint drop_prefix (p s : text) : option text :=
  match p, s with
  | [], _ => Some s
  | x :: p', y :: s' => if x =? y then drop_prefix p' s' else None
  | _ :: _, [] => None
  end.

(** [s.endswith(suffix)] *)
Definition endswith_text (suffix s : text) : bool :=
  bool_decide (is_Some (drop_prefix (rev suffix) (rev s))).

(** The name under which [path] is listed in directory [d], if it is a
    file directly inside [d]. *)
Definition entry_name (d path : text) : option text :=
  match drop_prefix (path_join d []) path with
  | Some (c :: n) =>
      if bool_decide (SLASH ∈ c :: n) then None else Some (c :: n)
  | _ => None
  end.

(** [os.listdir(d)], in the order of the store. *)
Definition listdir (w : World) (d : text) : list text :=
  omap (entry_name d) (elements (dom (files w))).

Definition NUL : N := 0.

(** The longest file name, in bytes, of the usual file systems. *)
Definition NAME_MAX : nat := 255.

(** [os.fsencode]: UTF-8 with the [surrogateescape] error handler, which
    turns the code points U+DC80 to U+DCFF into the bytes 0x80 to 0xFF;
    [None] stands for [UnicodeEncodeError]. *)
Definition fsencode_char (c : N) : option (list N) :=
  if (0xDC80 <=? c) && (c <=? 0xDCFF) then Some [c - 0xDC00]
  else utf8_encode_char c.

Fixpoint fsencode (s : text) : option (list N) :=
  match s with
  | [] => Some []
  | c :: s' =>
      match fsencode_char c, fsencode s' with
      | Some bs, Some bs' => Some (bs ++ bs')
      | _, _ => None
      end
  end.

(** A name that a file in an existing directory can have: [open] raises
    [ValueError] on a NUL, [UnicodeEncodeError] when the name cannot be
    encoded, and [OSError] on a name that is too long or is the directory
    itself or its parent. *)
Definition valid_name (n : text) : bool :=
  bool_decide (NUL ∉ n)
  && negb (bool_decide (n = [] ∨ n = py "." ∨ n = py ".."))
  && match fsencode n with
     | Some bs => (length bs <=? NAME_MAX)%nat
     | None => false
     end.

(** ** AKStorage *)

Record response := {
  status : N;
  body : string
}.

(** JSON body of the key requests; an absent body has no field. *)
Record KeyRequest := {
  req_name : option text;
  req_value : option text
}.

Section AKStorage.

Variable gpg : GPG.
Variable config : AKConfig.

Definition profile_path (name : text) : text :=
  path_join (profiles_dir config) (name ++ py ".profile").

Definition profile_keys_path (name : text) : text :=
  path_join (profiles_dir config) (name ++ py ".keys.gpg").

Definition profile_keys_plain_path (name : text) : text :=
  path_join (profiles_dir config) (name ++ py ".keys").

(** Lines 87-98.  The guard of line 90 never fires: the profiles directory
    is created when the configuration is built. *)
Definition list_profiles (w : World) : list text :=
  merge_sort text_le
    (omap (λ filename,
             if endswith_text (py ".profile") filename
             then Some (take (length filename - 8) filename)
             else None)
          (listdir w (profiles_dir config))).

(** Lines 100-119. *)
Definition read_profile (w : World) (name : text) : list text :=
  match read_text w (profile_path name) with
  | None => []
  | Some content => filter (λ line, line ≠ []) (strip <$> readlines content)
  end.

(** The write loop of lines 130-131: the text written so far and whether
    every [f.write] succeeded. *)
Fixpoint write_lines (buf : text) (keys : list text) : text * bool :=
  match keys with
  | [] => (buf, true)
  | key :: keys' =>
      if encodable key then write_lines (buf ++ key ++ [LF]) keys'
      else (buf, false)
  end.

(** Whether a file that does not exist can be created at [path]. *)
Definition can_create (w : World) (path : text) : bool :=
  match entry_name (profiles_dir config) path with
  | Some n => valid_name n
  | None => bool_decide (NUL ∉ path) && creatable w path
  end.

(** Whether [open(path, "w")] succeeds: it truncates an existing file or
    creates a new one. *)
Definition can_open (w : World) (path : text) : bool :=
  exists_ w path || can_create w path.

(** Lines 121-136.  When [open] raises, nothing has been written and the
    [except] branch returns [False]. *)
Definition write_profile (w : World) (name : text) (keys : list text)
    : bool * World :=
  let unique_keys :=
    merge_sort text_le (elements (list_to_set keys : gset text)) in
  if can_open w (profile_path name) then
    let '(buf, ok) := write_lines [] unique_keys in
    (ok, set_file (profile_path name) buf w)
  else (false, w).

(** Lines 138-184.  With a preset passphrase [gpg] runs in batch mode on a
    passphrase file, without one it runs on the file alone; both runs are
    the one call of [gpg_decrypt].  The passphrase file is transient and is
    unlinked before the function returns; writing it can raise, and
    [subprocess.run] raises [ValueError] on a NUL in an argument before it
    starts anything.  The standard output is captured with [text=True],
    which reads it with universal newlines. *)
Definition decrypt_gpg_data (w : World) (file_path : text)
    : option text * World :=
  if negb (gpg_available config) || force_plain config then (None, w)
  else if negb (encodable (preset_passphrase config)) then (None, w)
  else if bool_decide (NUL ∈ file_path) then (None, w)
  else
    (universal_newlines
       <$> (files w !! file_path
              ≫= gpg_decrypt gpg (preset_passphrase config)),
     log (GpgDecrypt file_path) w).

(** Lines 186-249.  [data] and the passphrase travel through transient
    files that are unlinked before the function returns; writing them can
    raise, and [subprocess.run] raises [ValueError] on a NUL in an argument
    before it starts anything.  Both command lines are the one call of
    [gpg_symmetric]; [gpg] fails when it cannot open its output file. *)
Definition encrypt_gpg_data (w : World) (data file_path : text)
    : bool * World :=
  if negb (gpg_available config) || force_plain config then (false, w)
  else if negb (encodable data) then (false, w)
  else if negb (encodable (preset_passphrase config)) then (false, w)
  else if bool_decide (NUL ∈ file_path) then (false, w)
  else
    match gpg_symmetric gpg (preset_passphrase config) data with
    | Some cipher =>
        if can_open w file_path
        then (true,
              set_file file_path cipher (log (GpgSymmetric file_path) w))
        else (false, log (GpgSymmetric file_path) w)
    | None => (false, log (GpgSymmetric file_path) w)
    end.

(** Python truth value of an [Optional[str]]. *)
Definition truthy (data : option text) : bool :=
  match data with
  | Some (_ :: _) => true
  | _ => false
  end.

(** Lines 251-292. *)
Definition load_profile_keys (w : World) (name : text)
    : gmap text text * World :=
  let encrypted_path := profile_keys_path name in
  let plain_path := profile_keys_plain_path name in
  let '(data, w) :=
    if exists_ w encrypted_path then decrypt_gpg_data w encrypted_path
    else (None, w) in
  let data :=
    if negb (truthy data) && exists_ w plain_path
    then read_text w plain_path
    else data in
  if negb (truthy data) then (∅, w)
  else (decode_contents (default [] data), w).

(** Lines 294-318.  When [open] of the plain contents file raises,
    nothing has been written and the [except] branch returns [False]. *)
Definition save_profile_keys (w : World) (name : text)
    (keys : gmap text text) : bool * World :=
  match encode_contents keys with
  | None => (false, w)
  | Some data =>
      let '(encrypted, w) :=
        encrypt_gpg_data w data (profile_keys_path name) in
      if encrypted then (true, w)
      else if negb (can_open w (profile_keys_plain_path name)) then (false, w)
      else if encodable data
      then (true, set_file (profile_keys_plain_path name) data w)
      else (false, set_file (profile_keys_plain_path name) [] w)
  end.

(** Lines 320-324. *)
Definition ensure_default_profile (w : World) : World :=
  let profiles := list_profiles w in
  if bool_decide (py "default" ∈ profiles) then w
  else (write_profile w (py "default") []).2.

(** ** API endpoints *)

Record HealthReport := {
  health_status : string;
  health_config_dir : text;
  health_gpg_available : bool
}.

(** Lines 398-407. *)
Definition health_check : HealthReport :=
  {| health_status := "healthy";
     health_config_dir := config_dir config;
     health_gpg_available := gpg_available config |}.

(** Lines 465-494. *)
Definition add_profile_key (w : World) (profile_name : text)
    (data : KeyRequest) : response * World :=
  match req_name data, req_value data with
  | Some key_name, Some key_value =>
      let '(keys, w) := load_profile_keys w profile_name in
      let keys := <[key_name := key_value]> keys in
      let '(saved, w) := save_profile_keys w profile_name keys in
      if saved then
        let profile_keys := read_profile w profile_name in
        let w :=
          if bool_decide (key_name ∈ profile_keys) then w
          else (write_profile w profile_name (profile_keys ++ [key_name])).2
        in
        ({| status := 200; body := "Key added successfully" |}, w)
      else ({| status := 500; body := "Failed to save key" |}, w)
  | _, _ => ({| status := 400; body := "Missing key name or value" |}, w)
  end.

(** Lines 497-519. *)
Definition update_profile_key (w : World) (profile_name key_name : text)
    (data : KeyRequest) : response * World :=
  match req_value data with
  | Some key_value =>
      let '(keys, w) := load_profile_keys w profile_name in
      let keys := <[key_name := key_value]> keys in
      let '(saved, w) := save_profile_keys w profile_name keys in
      if saved
      then ({| status := 200; body := "Key updated successfully" |}, w)
      else ({| status := 500; body := "Failed to update key" |}, w)
  | None => ({| status := 400; body := "Missing key value" |}, w)
  end.

(** [list.remove(x)]: removes the first occurrence. *)
Fixpoint list_remove (x : text) (l : list text) : list text :=
  match l with
  | [] => []
  | y :: l' => if bool_decide (y = x) then l' else y :: list_remove x l'
  end.

(** Lines 522-549. *)
Definition delete_profile_key (w : World) (profile_name key_name : text)
    : response * World :=
  let '(keys, w) := load_profile_keys w profile_name in
  if bool_decide (is_Some (keys !! key_name)) then
    let keys := delete key_name keys in
    let '(saved, w) := save_profile_keys w profile_name keys in
    if saved then
      let profile_keys := read_profile w profile_name in
      let w :=
        if bool_decide (key_name ∈ profile_keys)
        then (write_profile w profile_name
                (list_remove key_name profile_keys)).2
        else w in
      ({| status := 200; body := "Key deleted successfully" |}, w)
    else ({| status := 500; body := "Failed to save changes" |}, w)
  else ({| status := 404; body := "Key not found" |}, w).

(** Lines 552-575; [data] is the ["name"] field of the JSON body. *)
Definition create_profile (w : World) (data : option text)
    : response * World :=
  match data with
  | None => ({| status := 400; body := "Missing profile name" |}, w)
  | Some profile_name =>
      if bool_decide (profile_name ∈ list_profiles w)
      then ({| status := 409; body := "Profile already exists" |}, w)
      else
        let '(written, w) := write_profile w profile_name [] in
        if written
        then ({| status := 200; body := "Profile created successfully" |}, w)
        else ({| status := 500; body := "Failed to create profile" |}, w)
  end.

(** Lines 578-598. *)
Definition delete_profile (w : World) (profile_name : text)
    : response * World :=
  if bool_decide (profile_name = py "default")
  then ({| status := 400; body := "Cannot delete default profile" |}, w)
  else
    let w :=
      foldl (λ w path, if exists_ w path then unlink path w else w) w
        [profile_path profile_name; profile_keys_path profile_name;
         profile_keys_plain_path profile_name] in
    ({| status := 200; body := "Profile deleted successfully" |}, w).

End AKStorage.

(** ** Operations of the profile store, as a transition system *)

Inductive op :=
  | ListProfiles
  | ReadNameList (name : text)
  | WriteNameList (name : text) (keys : list text)
  | LoadKeys (name : text)
  | SaveKeys (name : text) (keys : gmap text text)
  | AddKey (profile : text) (data : KeyRequest)
  | UpdateKey (profile key : text) (data : KeyRequest)
  | DeleteKey (profile key : text)
  | CreateProfile (data : option text)
  | DeleteProfile (name : text)
  | EnsureDefaultProfile.

Definition step (gpg : GPG) (config : AKConfig) (w : World) (o : op)
    : World :=
  match o with
  | ListProfiles | ReadNameList _ => w
  | WriteNameList name keys => (write_profile config w name keys).2
  | LoadKeys name => (load_profile_keys gpg config w name).2
  | SaveKeys name keys => (save_profile_keys gpg config w name keys).2
  | AddKey profile data => (add_profile_key gpg config w profile data).2
  | UpdateKey profile key data =>
      (update_profile_key gpg config w profile key data).2
  | DeleteKey profile key => (delete_profile_key gpg config w profile key).2
  | CreateProfile data => (create_profile config w data).2
  | DeleteProfile name => (delete_profile config w name).2
  | EnsureDefaultProfile => ensure_default_profile config w
  end.

Definition run (gpg : GPG) (config : AKConfig) (w : World) (ops : list op)
    : World :=
  foldl (step gpg config) w ops.

(** Operations whose [delete_profile] names contain no path separator, as
    the URL rule [/api/profiles/<profile_name>] guarantees. *)
Definition separator_free (o : op) : Prop :=
  match o with
  | DeleteProfile name => SLASH ∉ name
  | _ => True
  end.

(** The three files that make up a profile. *)
Definition artifacts (config : AKConfig) (name : text) : list text :=
  [profile_path config name; profile_keys_path config name;
   profile_keys_plain_path config name].

(** Key names a name-list file carries unchanged. *)
Definition listable (key : text) : bool :=
  bool_decide (key ≠ []) && bool_decide (strip key = key)
  && bool_decide (LF ∉ key) && bool_decide (CR ∉ key) && encodable key.

(** ** Sample instances *)

(** A stand-in for [gpg]: the "cipher text" is the passphrase, a zero and
    the plain text. *)
Definition sample_gpg : GPG :=
  {| gpg_version := true;
     gpg_symmetric := λ passphrase data, Some (passphrase ++ 0 :: data);
     gpg_decrypt := λ passphrase cipher, drop_prefix (passphrase ++ [0]) cipher |}.

Definition sample_process : Process :=
  {| environ := ∅; home := py "/home/u" |}.

Definition sample_process_disabled : Process :=
  {| environ := {[ py "AK_DISABLE_GPG" := py "Yes" ]}; home := py "/home/u" |}.

(** An environment in which a file with a short ASCII name can be
    created directly inside ["/tmp"] and, besides the profiles directory,
    nowhere else. *)
Definition sample_creatable (path : text) : bool :=
  match drop_prefix (py "/tmp/") path with
  | Some (c :: n) =>
      forallb (λ c, (0 <? c) && (c <? 128) && negb (c =? SLASH)) (c :: n)
      && (length n <? NAME_MAX)%nat
  | _ => false
  end.

Definition empty_world : World :=
  {| files := ∅; calls := []; creatable := sample_creatable |}.

(** Encryption in use. *)
Definition sample_config : AKConfig :=
  (AKConfig_init sample_process sample_gpg empty_world).1.

(** Encryption switched off by [AK_DISABLE_GPG]. *)
Definition sample_config_plain : AKConfig :=
  (AKConfig_init sample_process_disabled sample_gpg empty_world).1.

Definition key_request (name value : text) : KeyRequest :=
  {| req_name := Some name; req_value := Some value |}.

(** A store filled while encryption was switched off: the profile
    ["default"] holds the key ["K"] in its plain contents file. *)
Definition plain_world : World :=
  (add_profile_key sample_gpg sample_config_plain
     (ensure_default_profile sample_config_plain empty_world)
     (py "default") (key_request (py "K") (py "v"))).2.

(** The same store after a restart with encryption in use, followed by
    adding ["K2"], deleting ["K"] and deleting ["K2"]. *)
Definition emptied_world : World :=
  run sample_gpg sample_config plain_world
    [AddKey (py "default") (key_request (py "K2") (py "v2"));
     DeleteKey (py "default") (py "K");
     DeleteKey (py "default") (py "K2")].

(** [w'] has every file that [w] has. *)
Definition grows (w w' : World) : Prop :=
  ∀ path, is_Some (files w !! path) → is_Some (files w' !! path).

(** The endings of the three files of a profile. *)
Definition artifact_suffixes : list text :=
  [py ".profile"; py ".keys.gpg"; py ".keys"].

(** A path that names a file directly inside the profiles directory.
    Two such paths denote the same file only when they are the same
    string. *)
Definition in_profiles_dir (config : AKConfig) (path : text) : bool :=
  bool_decide (is_Some (entry_name (profiles_dir config) path)).

(** A profile name whose three files lie directly in the profiles
    directory and have names that a file can have: it holds no path
    separator and no NUL and is short enough for the longest of the three
    file names. *)
Definition valid_profile_name (name : text) : bool :=
  negb (bool_decide (SLASH ∈ name))
  && forallb (λ suffix, valid_name (name ++ suffix)) artifact_suffixes.

(** ** Service table and the read-only endpoints *)

Definition CARET : N := 94.
Definition DOT : N := 46.
Definition STAR : N := 42.

(** Whether the pattern character [c] matches the text character [x]:
    ["."] matches every character but a line feed. *)
Definition re_char (c x : N) : bool :=
  if c =? DOT then negb (x =? LF) else c =? x.

(** Matching of a pattern at the front of a text, for the patterns built
    from plain characters, ["."] and a ["*"] after either of them. *)
Fixpoint matchhere (re s : text) {struct re} : bool :=
  match re with
  | [] => true
  | c :: re1 =>
      let single :=
        match s with
        | x :: s' => re_char c x && matchhere re1 s'
        | [] => false
        end in
      match re1 with
      | q :: re2 =>
          if q =? STAR then
            (fix matchstar (s : text) : bool :=
               matchhere re2 s
               || match s with
                  | x :: s' => re_char c x && matchstar s'
                  | [] => false
                  end) s
          else single
      | [] => single
      end
  end.

(** [re.match(pattern, s)] as a truth value, for the patterns of
    [BUILTIN_SERVICES]: an optional leading ["^"], then plain characters,
    ["."] and ["*"]. *)
Definition re_match (pattern s : text) : bool :=
  match pattern with
  | c :: re => if c =? CARET then matchhere re s else matchhere pattern s
  | [] => true
  end.

Record Service := {
  service_name : text;
  service_isBuiltIn : bool;
  service_apiUrl : text;
  service_keyPattern : text
}.

(** Lines 328-389, in the order of the dictionary. *)
Definition BUILTIN_SERVICES : list Service :=
  [ {| service_name := py "OpenAI"; service_isBuiltIn := true;
       service_apiUrl := py "https://api.openai.com/v1";
       service_keyPattern := py "^OPENAI_.*" |};
    {| service_name := py "Anthropic"; service_isBuiltIn := true;
       service_apiUrl := py "https://api.anthropic.com/v1";
       service_keyPattern := py "^ANTHROPIC_.*" |};
    {| service_name := py "GitHub"; service_isBuiltIn := true;
       service_apiUrl := py "https://api.github.com";
       service_keyPattern := py "^GITHUB_.*" |};
    {| service_name := py "GitLab"; service_isBuiltIn := true;
       service_apiUrl := py "https://gitlab.com/api/v4";
       service_keyPattern := py "^GITLAB_.*" |};
    {| service_name := py "Google"; service_isBuiltIn := true;
       service_apiUrl := py "https://www.googleapis.com";
       service_keyPattern := py "^GOOGLE_.*" |};
    {| service_name := py "AWS"; service_isBuiltIn := true;
       service_apiUrl := py "https://aws.amazon.com";
       service_keyPattern := py "^AWS_.*" |};
    {| service_name := py "Azure"; service_isBuiltIn := true;
       service_apiUrl := py "https://management.azure.com";
       service_keyPattern := py "^AZURE_.*" |};
    {| service_name := py "Stripe"; service_isBuiltIn := true;
       service_apiUrl := py "https://api.stripe.com/v1";
       service_keyPattern := py "^STRIPE_.*" |};
    {| service_name := py "Twilio"; service_isBuiltIn := true;
       service_apiUrl := py "https://api.twilio.com";
       service_keyPattern := py "^TWILIO_.*" |};
    {| service_name := py "SendGrid"; service_isBuiltIn := true;
       service_apiUrl := py "https://api.sendgrid.com/v3";
       service_keyPattern := py "^SENDGRID_.*" |} ].

(** The service loop of [get_profile_keys] (lines 442-448): the first
    service whose pattern matches, ["Unknown"] when none does. *)
Fixpoint detect_service_in (services : list Service) (key_name : text)
    : text :=
  match services with
  | [] => py "Unknown"
  | service_info :: rest =>
      if re_match (service_keyPattern service_info) key_name
      then service_name service_info
      else detect_service_in rest key_name
  end.

Definition detect_service (key_name : text) : text :=
  detect_service_in BUILTIN_SERVICES key_name.

Record ProfileInfo := {
  info_name : text;
  info_keyCount : nat;
  info_isDefault : bool
}.

(** [s] begins with [prefix]. *)
Definition has_prefix (prefix s : text) : bool :=
  bool_decide (is_Some (drop_prefix prefix s)).

(** The test of lines 140 and 188: no [gpg] is to be used. *)
Definition plain_mode (config : AKConfig) : bool :=
  negb (gpg_available config) || force_plain config.

(** Key names and values that a plain contents file carries unchanged. *)
Definition storable (key value : text) : Prop :=
  plain_key key = true ∧ (CR ∉ key) ∧ encodable key = true
  ∧ encodable value = true.


Section Endpoints.

Variable gpg : GPG.
Variable config : AKConfig.

(** The loop of [get_profiles] (lines 417-425). *)
Fixpoint get_profiles_loop (w : World) (profiles : list text)
    (profile_data : list ProfileInfo) : list ProfileInfo * World :=
  match profiles with
  | [] => (profile_data, w)
  | profile_name :: rest =>
      let '(keys, w) := load_profile_keys gpg config w profile_name in
      get_profiles_loop w rest
        (profile_data
         ++ [{| info_name := profile_name;
                info_keyCount := size keys;
                info_isDefault :=
                  bool_decide (profile_name = py "default") |}])
  end.

(** Lines 410-430: the list sent under ["profiles"] with status 200. *)
Definition get_profiles (w : World) : list ProfileInfo * World :=
  get_profiles_loop w (list_profiles config w) [].

End Endpoints.

(** A code point that UTF-8 can encode: below 0x110000 and no surrogate. *)
Definition scalar (c : N) : bool := (c <? 0x110000) && negb (is_surrogate c).

(** The file at [path], when there is one, holds text that the file
    encoding can encode, as every file read in text mode does. *)
Definition text_file (w : World) (path : text) : bool :=
  match files w !! path with
  | Some content => encodable content
  | None => true
  end.

(** The text between the leading ["^"] and the trailing [".*"] of a
    pattern of [BUILTIN_SERVICES]. *)
Definition pattern_prefix (pattern : text) : text :=
  take (length pattern - 3) (drop 1 pattern).

(** Pattern characters that stand for themselves. *)
Definition literal (c : N) : bool :=
  negb (c =? DOT) && negb (c =? STAR) && negb (c =? CARET).

(** The table as the service loop needs it: every pattern is ["^"], a
    literal text and [".*"]; no service is called ["Unknown"]; and two
    entries either agree in name and pattern or differ in their names and
    in their literal texts, neither text beginning with the other. *)
Definition well_formed_services (services : list Service) : bool :=
  forallb (λ s,
             bool_decide (service_keyPattern s
                          = CARET :: pattern_prefix (service_keyPattern s)
                                     ++ [DOT; STAR])
             && forallb literal (pattern_prefix (service_keyPattern s))
             && negb (bool_decide (service_name s = py "Unknown")))
    services
  && forallb (λ s1,
       forallb (λ s2,
         (bool_decide (service_name s1 = service_name s2)
          && bool_decide (service_keyPattern s1 = service_keyPattern s2))
         || (negb (bool_decide (service_name s1 = service_name s2))
             && negb (has_prefix (pattern_prefix (service_keyPattern s1))
                        (pattern_prefix (service_keyPattern s2))
                      || has_prefix (pattern_prefix (service_keyPattern s2))
                           (pattern_prefix (service_keyPattern s1)))))
         services) services.

(** A [gpg] that is installed and fails at every run. *)
Definition failing_gpg : GPG :=
  {| gpg_version := true;
     gpg_symmetric := λ _ _, None;
     gpg_decrypt := λ _ _, None |}.

(** * Properties *)

(** ** Proof automation *)

Ltac Zify.zify_post_hook ::= Z.to_euclidean_division_equations.

Ltac nbool :=
  repeat match goal with
    | |- context [?a <? ?b] => destruct (N.ltb_spec a b); try lia
    | |- context [?a <=? ?b] => destruct (N.leb_spec a b); try lia
    | |- context [?a =? ?b] => destruct (N.eqb_spec a b); try lia
    end.

Ltac all_below :=
  repeat first [apply Forall_nil_2 | apply Forall_cons_2; [lia|]].

Ltac list_eq :=
  repeat match goal with
    | |- _ :: _ = _ :: _ => f_equal; try lia
    end;
  try reflexivity.

Ltac case_ifs :=
  repeat match goal with
    | |- context [if ?b then _ else _] => destruct b; simpl
    end.

Create HintDb grows.

(** ** UTF-8 *)

Lemma utf8_encode_char_bytes c bs :
  utf8_encode_char c = Some bs → Forall (λ b, b < 256) bs.
Proof.
  unfold utf8_encode_char, is_surrogate.
  nbool; simpl; intros [= <-]; all_below.
Qed.

Lemma utf8_encode_bytes s bs :
  utf8_encode s = Some bs → Forall (λ b, b < 256) bs.
Proof.
  revert bs. induction s as [|c s IH]; simpl; intros bs.
  - intros [= <-]. constructor.
  - destruct (utf8_encode_char c) as [b1|] eqn:Hc; [|done].
    destruct (utf8_encode s) as [r|]; [|done].
    intros [= <-]. apply Forall_app; split; eauto using utf8_encode_char_bytes.
Qed.

Lemma utf8_decode_encode_char c bs r :
  utf8_encode_char c = Some bs →
  utf8_decode (bs ++ r) = cons c <$> utf8_decode r.
Proof.
  unfold utf8_encode_char, is_surrogate.
  nbool; simpl; intros [= <-]; cbn [app utf8_decode];
    unfold is_cont, is_surrogate; nbool; simpl; f_equal; f_equal; lia.
Qed.

Lemma utf8_decode_encode s bs :
  utf8_encode s = Some bs → utf8_decode bs = Some s.
Proof.
  revert bs. induction s as [|c s IH]; simpl; intros bs.
  - by intros [= <-].
  - destruct (utf8_encode_char c) as [b1|] eqn:Hc; [|done].
    destruct (utf8_encode s) as [r|]; [|done].
    intros [= <-]. rewrite (utf8_decode_encode_char _ _ _ Hc).
    by rewrite (IH r).
Qed.

(** ** Base64 *)

Lemma table_a2b_b2a i : i < 64 → table_a2b (table_b2a i) = Some i.
Proof.
  intros Hi. unfold table_a2b, table_b2a.
  nbool; simpl; try (f_equal; lia); nbool.
Qed.

Lemma table_b2a_not_pad i : i < 64 → (table_b2a i =? EQUALS) = false.
Proof.
  intros Hi. apply N.eqb_neq. unfold table_b2a, EQUALS. nbool; lia.
Qed.

Lemma table_b2a_ascii i : i < 64 → (table_b2a i <? 128) = true.
Proof.
  intros Hi. apply N.ltb_lt. unfold table_b2a. nbool; lia.
Qed.

(** The loop on one character of the alphabet. *)
Lemma a2b_loop_data q l p bin v rest :
  v < 64 →
  a2b_loop q l p bin (table_b2a v :: rest) =
  match q with
  | 0%nat => a2b_loop 1 v 0 bin rest
  | 1%nat => a2b_loop 2 (v mod 16) 0 (bin ++ [l * 4 + v / 16]) rest
  | 2%nat => a2b_loop 3 (v mod 4) 0 (bin ++ [l * 16 + v / 4]) rest
  | _ => a2b_loop 0 0 0 (bin ++ [l * 64 + v]) rest
  end.
Proof.
  intros Hv. cbn [a2b_loop].
  by rewrite table_b2a_not_pad, table_a2b_b2a.
Qed.

Lemma list_ind3 {A} (P : list A → Prop) :
  P [] → (∀ a, P [a]) → (∀ a b, P [a; b]) →
  (∀ a b c r, P r → P (a :: b :: c :: r)) →
  ∀ l, P l.
Proof.
  intros H0 H1 H2 H3 l.
  assert (∀ n l, (length l ≤ n)%nat → P l) as Hn; [|by eapply Hn].
  clear l. induction n as [|n IH]; intros [|a [|b [|c r]]] Hl; simpl in *;
    auto; try lia.
  apply H3, IH. lia.
Qed.

Lemma a2b_loop_b64encode bs bin :
  Forall (λ b, b < 256) bs →
  a2b_loop 0 0 0 bin (b64encode bs) = Some (bin ++ bs).
Proof.
  revert bin. induction bs as [|a|a b|a b c r IH] using list_ind3;
    intros bin Hbs.
  - simpl. by rewrite app_nil_r.
  - apply Forall_cons_1 in Hbs as [Ha _]. cbn [b64encode].
    rewrite !a2b_loop_data by lia. simpl. f_equal. f_equal. list_eq.
  - apply Forall_cons_1 in Hbs as [Ha Hbs].
    apply Forall_cons_1 in Hbs as [Hb _]. cbn [b64encode].
    rewrite !a2b_loop_data by lia. simpl.
    rewrite <-app_assoc. simpl. f_equal. f_equal. list_eq.
  - apply Forall_cons_1 in Hbs as [Ha Hbs].
    apply Forall_cons_1 in Hbs as [Hb Hbs].
    apply Forall_cons_1 in Hbs as [Hc Hbs]. cbn [b64encode].
    rewrite !a2b_loop_data by lia. rewrite IH by done.
    rewrite <-!app_assoc. simpl. f_equal. f_equal. list_eq.
Qed.

Lemma b64encode_ascii bs :
  Forall (λ b, b < 256) bs → forallb (λ c, c <? 128) (b64encode bs) = true.
Proof.
  induction bs as [|a|a b|a b c r IH] using list_ind3; intros Hbs.
  - done.
  - apply Forall_cons_1 in Hbs as [Ha _]. cbn [b64encode forallb].
    rewrite !table_b2a_ascii by lia. done.
  - apply Forall_cons_1 in Hbs as [Ha Hbs].
    apply Forall_cons_1 in Hbs as [Hb _]. cbn [b64encode forallb].
    rewrite !table_b2a_ascii by lia. done.
  - apply Forall_cons_1 in Hbs as [Ha Hbs].
    apply Forall_cons_1 in Hbs as [Hb Hbs].
    apply Forall_cons_1 in Hbs as [Hc Hbs]. cbn [b64encode forallb].
    rewrite !table_b2a_ascii by lia. by rewrite IH.
Qed.

Lemma b64decode_b64encode bs :
  Forall (λ b, b < 256) bs → b64decode (b64encode bs) = Some bs.
Proof.
  intros Hbs. unfold b64decode, a2b_base64.
  rewrite b64encode_ascii by done. by rewrite a2b_loop_b64encode.
Qed.

Lemma b64encode_range bs :
  Forall (λ b, b < 256) bs → Forall (λ c, 43 ≤ c ≤ 122) (b64encode bs).
Proof.
  assert (∀ i, i < 64 → 43 ≤ table_b2a i ≤ 122) as Hr.
  { intros i Hi. unfold table_b2a. nbool; lia. }
  induction bs as [|a|a b|a b c r IH] using list_ind3; intros Hbs.
  - constructor.
  - apply Forall_cons_1 in Hbs as [Ha _]. cbn [b64encode].
    repeat first [apply Forall_nil_2
                 | apply Forall_cons_2; [first [apply Hr; lia | done]|]].
  - apply Forall_cons_1 in Hbs as [Ha Hbs].
    apply Forall_cons_1 in Hbs as [Hb _]. cbn [b64encode].
    repeat first [apply Forall_nil_2
                 | apply Forall_cons_2; [first [apply Hr; lia | done]|]].
  - apply Forall_cons_1 in Hbs as [Ha Hbs].
    apply Forall_cons_1 in Hbs as [Hb Hbs].
    apply Forall_cons_1 in Hbs as [Hc Hbs]. cbn [b64encode].
    repeat (apply Forall_cons_2; [apply Hr; lia|]). by apply IH.
Qed.

(** ** Text operations *)

Lemma isspace_range c : 33 ≤ c ≤ 126 → isspace c = false.
Proof. intros Hc. unfold isspace. nbool; done. Qed.

Lemma lstrip_clean s : starts_clean s = true → lstrip s = s.
Proof. destruct s as [|c s]; simpl; [done|]. by destruct (isspace c). Qed.

Lemma strip_clean s :
  starts_clean s = true → ends_clean s = true → strip s = s.
Proof.
  intros Hs He. unfold strip, rstrip. rewrite (lstrip_clean s) by done.
  rewrite lstrip_clean by done. apply rev_involutive.
Qed.

Lemma lstrip_length s : (length (lstrip s) ≤ length s)%nat.
Proof.
  induction s as [|c s IH]; simpl; [done|].
  destruct (isspace c); simpl; lia.
Qed.

Lemma lstrip_fixed s : lstrip s = s → s ≠ [] → starts_clean s = true.
Proof.
  destruct s as [|c s]; simpl; [done|]. intros Hs _.
  destruct (isspace c); [|done].
  pose proof (lstrip_length s) as Hl. rewrite Hs in Hl. simpl in Hl. lia.
Qed.

Lemma strip_fixed s :
  strip s = s → s ≠ [] → starts_clean s = true ∧ ends_clean s = true.
Proof.
  intros Hs Hne. unfold strip, rstrip in Hs.
  assert (length (lstrip s) = length s ∧
          length (lstrip (rev (lstrip s))) = length (lstrip s)) as [H1 H2].
  { pose proof (lstrip_length s). pose proof (lstrip_length (rev (lstrip s))).
    apply (f_equal length) in Hs. rewrite !length_rev in *. lia. }
  assert (lstrip s = s) as Hl.
  { clear Hs H2. destruct s as [|c s]; simpl in *; [done|].
    destruct (isspace c); [|done].
    pose proof (lstrip_length s). lia. }
  rewrite Hl in Hs. split; [by apply lstrip_fixed|].
  unfold ends_clean. apply lstrip_fixed.
  - rewrite <-(rev_involutive (lstrip (rev s))), Hs. done.
  - intros Hr. apply (f_equal length) in Hr. rewrite length_rev in Hr.
    destruct s; simpl in *; [done|lia].
Qed.

Lemma starts_clean_app s r :
  starts_clean s = true → starts_clean (s ++ r) = true.
Proof. by destruct s. Qed.

Lemma ends_clean_app s r :
  ends_clean r = true → ends_clean (s ++ r) = true.
Proof.
  unfold ends_clean. rewrite rev_app_distr. apply starts_clean_app.
Qed.

Lemma ends_clean_snoc s c : ends_clean (s ++ [c]) = negb (isspace c).
Proof. unfold ends_clean. by rewrite rev_app_distr. Qed.

Lemma ends_clean_range s :
  s ≠ [] → Forall (λ c, 33 ≤ c ≤ 126) s → ends_clean s = true.
Proof.
  intros Hne Hs. destruct s as [|c s _] using rev_ind; [done|].
  rewrite ends_clean_snoc. apply Forall_app in Hs as [_ Hc].
  apply Forall_cons_1 in Hc as [Hc _]. by rewrite isspace_range.
Qed.

Lemma split_without sep s : sep ∉ s → split sep s = [s].
Proof.
  induction s as [|c s IH]; simpl; [done|]. intros Hs.
  apply not_elem_of_cons in Hs as [Hc Hs].
  destruct (N.eqb_spec c sep); [congruence|]. by rewrite IH.
Qed.

Lemma split_app sep a b :
  sep ∉ a → split sep (a ++ sep :: b) = a :: split sep b.
Proof.
  induction a as [|c a IH]; simpl; intros Ha.
  - by rewrite N.eqb_refl.
  - apply not_elem_of_cons in Ha as [Hc Ha].
    destruct (N.eqb_spec c sep); [congruence|]. by rewrite IH.
Qed.

Lemma split_join sep parts :
  parts ≠ [] → Forall (λ p, sep ∉ p) parts →
  split sep (join sep parts) = parts.
Proof.
  induction parts as [|p ps IH]; [done|]. intros _ Hps.
  apply Forall_cons_1 in Hps as [Hp Hps].
  destruct ps as [|q ps]; simpl.
  - by apply split_without.
  - rewrite split_app by done. f_equal. by apply IH.
Qed.

Lemma split_first_app sep a b :
  sep ∉ a → split_first sep (a ++ sep :: b) = Some (a, b).
Proof.
  induction a as [|c a IH]; simpl; intros Ha.
  - by rewrite N.eqb_refl.
  - apply not_elem_of_cons in Ha as [Hc Ha].
    destruct (N.eqb_spec c sep); [congruence|]. by rewrite IH.
Qed.

(** ** Key codec *)

Lemma plain_key_spec key :
  plain_key key = true ↔
  lstrip key = key ∧ (EQUALS ∉ key) ∧ (LF ∉ key)
  ∧ startswith HASH key = false.
Proof.
  unfold plain_key. rewrite !andb_true_iff, !bool_decide_eq_true.
  rewrite negb_true_iff. tauto.
Qed.

(** A line written for a plain key is read back as the same binding, and
    has the shape the surrounding text operations rely on. *)
Lemma decode_encode_line kv line :
  plain_key kv.1 = true → encode_line kv = Some line →
  decode_line line = Some kv ∧ (LF ∉ line)
  ∧ starts_clean line = true ∧ ends_clean line = true.
Proof.
  destruct kv as [key value]. simpl. intros Hkey Hline.
  apply plain_key_spec in Hkey as (Hstrip & Heq & Hlf & Hhash).
  unfold encode_line in Hline. simpl in Hline.
  destruct (utf8_encode value) as [bs|] eqn:Hbs; [|done].
  injection Hline as <-.
  pose proof (utf8_encode_bytes _ _ Hbs) as Hbytes.
  pose proof (b64encode_range _ Hbytes) as Hrange.
  assert (Forall (λ c, 33 ≤ c ≤ 126) (EQUALS :: b64encode bs)) as Htail.
  { apply Forall_cons_2; [unfold EQUALS; lia|].
    eapply Forall_impl; [done|]. simpl. lia. }
  assert (starts_clean (key ++ EQUALS :: b64encode bs) = true) as Hstart.
  { destruct (decide (key = [])) as [->|Hne]; [done|].
    apply starts_clean_app. by apply lstrip_fixed. }
  assert (ends_clean (key ++ EQUALS :: b64encode bs) = true) as Hend.
  { apply ends_clean_app, ends_clean_range; done. }
  assert (LF ∉ key ++ EQUALS :: b64encode bs) as Hnolf.
  { rewrite elem_of_app. intros [?|Hin]; [done|].
    rewrite Forall_forall in Htail. apply Htail in Hin. unfold LF in Hin. lia. }
  split_and!; try done.
  unfold decode_line. rewrite strip_clean by done.
  rewrite bool_decide_eq_false_2 by (by destruct key).
  replace (startswith HASH (key ++ EQUALS :: b64encode bs)) with false
    by (by destruct key).
  simpl. rewrite split_first_app by done.
  rewrite b64decode_b64encode by done. simpl.
  by rewrite (utf8_decode_encode _ _ Hbs).
Qed.

Lemma join_clean lines :
  lines ≠ [] →
  Forall (λ l, starts_clean l = true ∧ ends_clean l = true) lines →
  starts_clean (join LF lines) = true ∧ ends_clean (join LF lines) = true.
Proof.
  induction lines as [|l ls IH]; [done|]. intros _ Hls.
  apply Forall_cons_1 in Hls as [[Hs He] Hls].
  destruct ls as [|l' ls]; [done|].
  change (join LF (l :: l' :: ls)) with (l ++ LF :: join LF (l' :: ls)).
  split; [by apply starts_clean_app|].
  change (l ++ LF :: join LF (l' :: ls))
    with (l ++ [LF] ++ join LF (l' :: ls)).
  do 2 apply ends_clean_app. by apply IH.
Qed.

Lemma strip_trailing_newline s :
  starts_clean s = true → ends_clean s = true → strip (s ++ [LF]) = s.
Proof.
  intros Hs He. unfold strip, rstrip.
  rewrite (lstrip_clean (s ++ [LF])) by (by apply starts_clean_app).
  rewrite rev_app_distr. simpl. rewrite lstrip_clean by done.
  apply rev_involutive.
Qed.

(** Reading back the lines written for a list of bindings. *)
Lemma decode_lines_fold (items : list (text * text)) (lines : list text)
    (m : gmap text text) :
  Forall2 (λ kv line, decode_line line = Some kv) items lines →
  fold_left
    (λ keys line,
       match decode_line line with
       | Some (key, value) => <[key := value]> keys
       | None => keys
       end) lines m
  = fold_left (λ keys kv, <[kv.1 := kv.2]> keys) items m.
Proof.
  intros H. revert m. induction H as [|[k v] line items lines Hl _ IH];
    intros m; simpl; [done|].
  by rewrite Hl, IH.
Qed.

Lemma fold_left_insert_rev (items : list (text * text)) :
  fold_left (λ keys kv, <[kv.1 := kv.2]> keys) items ∅
  = list_to_map (M:=gmap text text) (rev items).
Proof.
  induction items as [|kv items IH] using rev_ind; [done|].
  rewrite fold_left_app, rev_app_distr. simpl. by rewrite IH.
Qed.

Lemma fold_left_insert_items (m : gmap text text)
    (items : list (text * text)) :
  items ≡ₚ map_to_list m →
  fold_left (λ keys kv, <[kv.1 := kv.2]> keys) items ∅ = m.
Proof.
  intros Hperm. rewrite fold_left_insert_rev.
  transitivity (list_to_map (M:=gmap text text) (map_to_list m));
    [|apply list_to_map_to_list].
  apply list_to_map_proper.
  - rewrite <-Permutation_rev, Hperm. apply NoDup_fst_map_to_list.
  - by rewrite <-Permutation_rev.
Qed.

Lemma decode_encode_contents (keys : gmap text text) data :
  map_Forall (λ key _, plain_key key = true) keys →
  encode_contents keys = Some data →
  decode_contents data = keys.
Proof.
  intros Hkeys. unfold encode_contents.
  destruct (mapM encode_line (sorted_items keys)) as [lines|] eqn:Hlines;
    [|done].
  apply mapM_Some in Hlines.
  assert (sorted_items keys ≡ₚ map_to_list keys) as Hperm
    by apply merge_sort_Permutation.
  assert (Forall (λ kv, plain_key kv.1 = true) (sorted_items keys)) as Hplain.
  { rewrite Hperm. apply Forall_forall. intros [k v] Hin.
    apply elem_of_map_to_list in Hin. by apply (Hkeys k v). }
  assert (Forall2 (λ kv line, decode_line line = Some kv)
            (sorted_items keys) lines
          ∧ Forall (λ l, LF ∉ l) lines
          ∧ Forall (λ l, starts_clean l = true ∧ ends_clean l = true) lines)
    as (Hdec & Hlf & Hclean).
  { clear Hperm. induction Hlines as [|kv line items lines Hl _ IH].
    - by repeat constructor.
    - apply Forall_cons_1 in Hplain as [Hk Hplain].
      destruct (decode_encode_line kv line Hk Hl) as (?&?&?&?).
      destruct (IH Hplain) as (?&?&?). by repeat constructor. }
  unfold decode_contents, contents_lines.
  destruct (decide (lines = [])) as [->|Hne].
  - intros [= <-]. apply Forall2_nil_inv_r in Hdec.
    rewrite <-(fold_left_insert_items keys (sorted_items keys)) by done.
    by rewrite Hdec.
  - replace (match lines with
             | [] => Some []
             | _ :: _ => Some (join LF lines ++ [LF])
             end) with (Some (join LF lines ++ [LF])) by (by destruct lines).
    intros [= <-].
    destruct (join_clean lines Hne Hclean) as [Hs He].
    rewrite strip_trailing_newline, split_join by done.
    rewrite (decode_lines_fold _ _ _ Hdec).
    by apply fold_left_insert_items.
Qed.

(** The parse loop, started from any mapping: a key is bound to the value
    of the last line that decodes to a binding for it. *)
Lemma decode_fold_lookup (lines : list text) (m : gmap text text) key :
  fold_left
    (λ keys line,
       match decode_line line with
       | Some (key, value) => <[key := value]> keys
       | None => keys
       end) lines m !! key
  = match last_binding key lines with
    | Some value => Some value
    | None => m !! key
    end.
Proof.
  revert m. induction lines as [|line lines IH]; intros m; [done|].
  simpl. rewrite IH. unfold last_binding. simpl.
  destruct (decode_line line) as [[k v]|]; [|done].
  destruct (decide (k = key)) as [->|Hne].
  - rewrite last_cons. rewrite lookup_insert_eq.
    by destruct (last _).
  - by rewrite lookup_insert_ne.
Qed.

Lemma split_first_Some sep s a b :
  split_first sep s = Some (a, b) → s = a ++ sep :: b ∧ sep ∉ a.
Proof.
  revert a. induction s as [|c s IH]; simpl; intros a; [done|].
  destruct (N.eqb_spec c sep) as [->|Hne].
  - intros [= <- <-]. split; [done|]. apply not_elem_of_nil.
  - destruct (split_first sep s) as [[a' b']|]; [|done].
    intros [= <- <-]. destruct (IH a' eq_refl) as [-> Ha].
    split; [done|]. by apply not_elem_of_cons.
Qed.

Lemma split_parts_without sep s : Forall (λ p, sep ∉ p) (split sep s).
Proof.
  induction s as [|c s IH]; simpl.
  - repeat constructor. apply not_elem_of_nil.
  - destruct (N.eqb_spec c sep) as [->|Hne].
    + constructor; [apply not_elem_of_nil|done].
    + destruct (split sep s) as [|w ws].
      * apply Forall_cons_2; [|constructor].
        apply not_elem_of_cons; split; [congruence|apply not_elem_of_nil].
      * apply Forall_cons_1 in IH as [Hw Hws].
        apply Forall_cons_2; [|done].
        apply not_elem_of_cons; split; [congruence|done].
Qed.

Lemma lstrip_suffix s : ∃ p, s = p ++ lstrip s.
Proof.
  induction s as [|c s [p IH]]; simpl; [by exists []|].
  destruct (isspace c); [|by exists []].
  exists (c :: p). simpl. by f_equal.
Qed.

Lemma lstrip_starts s : lstrip s = [] ∨ starts_clean (lstrip s) = true.
Proof.
  induction s as [|c s IH]; simpl; [by left|].
  destruct (isspace c) eqn:Hc; [done|]. right. simpl. by rewrite Hc.
Qed.

Lemma rstrip_prefix s : ∃ r, s = rstrip s ++ r.
Proof.
  unfold rstrip. destruct (lstrip_suffix (rev s)) as [p Hp].
  exists (rev p). rewrite <-rev_app_distr, <-Hp. by rewrite rev_involutive.
Qed.

Lemma strip_elem_of c s : c ∈ strip s → c ∈ s.
Proof.
  unfold strip. intros Hc.
  destruct (rstrip_prefix (lstrip s)) as [r Hr].
  destruct (lstrip_suffix s) as [p Hp].
  rewrite Hp, Hr. set_solver.
Qed.

Lemma strip_starts s : strip s = [] ∨ starts_clean (strip s) = true.
Proof.
  unfold strip. destruct (rstrip_prefix (lstrip s)) as [r Hr].
  destruct (rstrip (lstrip s)) as [|c t] eqn:Ht; [by left|]. right.
  destruct (lstrip_starts s) as [Hl|Hl]; rewrite Hr in Hl; done.
Qed.

(** Every key the parser produces is a plain key. *)
Lemma decode_line_plain line key value :
  LF ∉ line → decode_line line = Some (key, value) → plain_key key = true.
Proof.
  unfold decode_line. intros Hlf.
  destruct (strip_starts line) as [Hs|Hs].
  { rewrite Hs. done. }
  pose proof (strip_elem_of LF line) as Hin.
  destruct (strip line) as [|c t] eqn:Hl; [done|].
  rewrite bool_decide_eq_false_2 by done.
  destruct (startswith HASH (c :: t)) eqn:Hhash; [done|]. cbn [orb].
  destruct (split_first EQUALS (c :: t)) as [[k e]|] eqn:Hsplit; [|done].
  destruct (b64decode e ≫= utf8_decode); [|done].
  intros [= -> ->].
  apply split_first_Some in Hsplit as [Hsplit Heq].
  apply plain_key_spec. split_and!; try done.
  - destruct key as [|c' key]; [done|].
    injection Hsplit as <- _. apply lstrip_clean. exact Hs.
  - intros Hk. apply Hlf, Hin. rewrite Hsplit. set_solver.
  - destruct key as [|c' key]; [done|]. by injection Hsplit as <- _.
Qed.

Lemma decode_contents_plain data :
  map_Forall (λ key _, plain_key key = true) (decode_contents data).
Proof.
  unfold decode_contents, contents_lines.
  pose proof (split_parts_without LF (strip data)) as Hlines.
  assert (map_Forall (λ key (_ : text), plain_key key = true)
            (∅ : gmap text text)) as Hm by apply map_Forall_empty.
  revert Hm. generalize (∅ : gmap text text).
  induction Hlines as [|line lines Hline _ IH]; intros m Hm; [done|].
  simpl. apply IH.
  destruct (decode_line line) as [[k v]|] eqn:Hd; [|done].
  apply map_Forall_insert_2; [|done]. by eapply decode_line_plain.
Qed.

(** ** Paths *)

Lemma path_join_absolute d x : startswith SLASH x = true → path_join d x = x.
Proof. unfold path_join. by intros ->. Qed.

Lemma path_join_relative d x :
  startswith SLASH x = false → path_join d x = path_join d [] ++ x.
Proof.
  unfold path_join. intros ->. simpl.
  destruct (bool_decide (d = []) || endswith SLASH d).
  - by rewrite app_nil_r.
  - by rewrite <-app_assoc.
Qed.

Lemma startswith_suffixed c name suffix :
  startswith c suffix = false →
  startswith c (name ++ suffix) = startswith c name.
Proof. by destruct name. Qed.

Lemma not_startswith_slash name : SLASH ∉ name → startswith SLASH name = false.
Proof.
  destruct name as [|c name]; [done|]. intros Hn. simpl.
  apply N.eqb_neq. intros ->. apply Hn. by left.
Qed.

(** The directory prefix of a configuration built by [AKConfig_init]. *)
Lemma profiles_dir_prefix p gpg w :
  path_join (profiles_dir (AKConfig_init p gpg w).1) []
  = profiles_dir (AKConfig_init p gpg w).1 ++ [SLASH].
Proof.
  simpl. rewrite (path_join_relative _ (py "profiles")) by done.
  generalize (path_join (_get_config_dir p) []). intros d.
  unfold path_join, endswith. simpl startswith at 1. cbv iota.
  rewrite app_nil_r, rev_app_distr.
  by rewrite bool_decide_eq_false_2 by (by destruct d).
Qed.

Lemma profile_path_relative config name :
  startswith SLASH name = false →
  profile_path config name
  = path_join (profiles_dir config) [] ++ name ++ py ".profile".
Proof.
  intros Hn. unfold profile_path. apply path_join_relative.
  by rewrite startswith_suffixed.
Qed.

(** ** Lines of a name list *)

Lemma text_leb_total a b : text_leb a b = true ∨ text_leb b a = true.
Proof.
  revert b. induction a as [|x a IH]; intros [|y b]; simpl; auto.
  destruct (N.ltb_spec x y), (N.ltb_spec y x); auto; lia.
Qed.

Global Instance text_le_total : Total text_le.
Proof. intros a b. apply text_leb_total. Qed.

Lemma listable_spec key :
  listable key = true ↔
  key ≠ [] ∧ strip key = key ∧ (LF ∉ key) ∧ (CR ∉ key)
  ∧ encodable key = true.
Proof.
  unfold listable. rewrite !andb_true_iff, !bool_decide_eq_true. tauto.
Qed.

Lemma universal_newlines_id s : CR ∉ s → universal_newlines s = s.
Proof.
  induction s as [|c s IH]; [done|]. intros Hs.
  apply not_elem_of_cons in Hs as [Hc Hs]. simpl.
  destruct (N.eqb_spec c CR); [congruence|]. by rewrite IH.
Qed.

Lemma readlines_line key rest :
  LF ∉ key → readlines (key ++ LF :: rest) = (key ++ [LF]) :: readlines rest.
Proof.
  induction key as [|c key IH]; simpl; intros Hk.
  - done.
  - apply not_elem_of_cons in Hk as [Hc Hk].
    destruct (N.eqb_spec c LF); [congruence|]. by rewrite IH.
Qed.

Lemma readlines_written keys :
  Forall (λ key, LF ∉ key) keys →
  readlines (concat ((λ key, key ++ [LF]) <$> keys))
  = (λ key, key ++ [LF]) <$> keys.
Proof.
  induction 1 as [|key keys Hk _ IH]; [done|].
  rewrite fmap_cons. cbn [concat]. rewrite <-app_assoc. cbn [app].
  rewrite readlines_line by done. by rewrite IH.
Qed.

Lemma written_without_cr keys :
  Forall (λ key, CR ∉ key) keys →
  CR ∉ concat ((λ key, key ++ [LF]) <$> keys).
Proof.
  induction 1 as [|key keys Hk _ IH]; [apply not_elem_of_nil|].
  rewrite fmap_cons. cbn [concat]. rewrite !elem_of_app.
  intros [[?|Hcr]|?]; [done| |done].
  apply list_elem_of_singleton in Hcr. discriminate.
Qed.

(** Reading back the lines written for listable key names. *)
Lemma read_written_lines keys :
  Forall (λ key, listable key = true) keys →
  filter (λ line, line ≠ [])
    (strip <$> readlines
       (universal_newlines (concat ((λ key, key ++ [LF]) <$> keys))))
  = keys.
Proof.
  intros Hkeys.
  assert (Forall (λ key, key ≠ [] ∧ strip key = key ∧ (LF ∉ key)
                         ∧ (CR ∉ key) ∧ encodable key = true) keys) as H.
  { eapply Forall_impl; [done|]. intros key. apply listable_spec. }
  clear Hkeys.
  rewrite universal_newlines_id
    by (apply written_without_cr; eapply Forall_impl; [done|];
        by intros key (?&?&?&?&?)).
  rewrite readlines_written
    by (eapply Forall_impl; [done|]; by intros key (?&?&?&?&?)).
  induction H as [|key keys (Hne & Hstrip & _) _ IH]; [done|].
  rewrite !fmap_cons. destruct (strip_fixed key Hstrip Hne) as [Hs He].
  rewrite strip_trailing_newline by done.
  rewrite filter_cons_True by done. by rewrite IH.
Qed.

(** ** Key names the contents format does not carry *)

(** A key with ["="] comes back cut at the first ["="]. *)
Example key_with_equals :
  encode_contents {[ py "a=b" := py "v" ]} = Some (py "a=b=dg==" ++ [LF])
  ∧ decode_line (py "a=b=dg==") = None
  ∧ decode_line (py "a==dg==") = Some (py "a", py "v").
Proof. split_and!; vm_compute; reflexivity. Qed.

(** A key with a line feed is spread over two lines. *)
Example key_with_newline :
  decode_contents (py "a" ++ LF :: py "b=dg==" ++ [LF])
  = {[ py "b" := py "v" ]}.
Proof. vm_compute. reflexivity. Qed.

(** Leading white space is stripped; trailing white space is kept. *)
Example key_with_spaces :
  decode_contents (py " a =dg==" ++ [LF]) = {[ py "a " := py "v" ]}.
Proof. vm_compute. reflexivity. Qed.

(** A line whose value is not base64 is skipped, the others are kept. *)
Example malformed_line_skipped :
  decode_contents (py "BAD=Y" ++ LF :: py "GOOD=dg==" ++ [LF])
  = {[ py "GOOD" := py "v" ]}.
Proof. vm_compute. reflexivity. Qed.

(** ** The storage engine *)

Section Storage.

Context (gpg : GPG) (config : AKConfig).

(** *** The file store *)

Lemma unlink_if_exists w path :
  (if exists_ w path then unlink path w else w) = unlink path w.
Proof.
  unfold exists_, unlink. case_bool_decide as H; [done|].
  destruct w as [f c k]. simpl in *. f_equal.
  symmetry. apply delete_id. by apply eq_None_not_Some.
Qed.

Lemma read_text_ext w1 w2 path :
  files w1 = files w2 → read_text w1 path = read_text w2 path.
Proof. unfold read_text. by intros ->. Qed.

Lemma read_profile_ext w1 w2 name :
  files w1 = files w2 →
  read_profile config w1 name = read_profile config w2 name.
Proof. intros Hf. unfold read_profile. by rewrite (read_text_ext w1 w2). Qed.

Lemma can_open_exists w path :
  is_Some (files w !! path) → can_open config w path = true.
Proof.
  intros H. unfold can_open, exists_. by rewrite bool_decide_eq_true_2.
Qed.

Lemma can_open_set_file w path data :
  can_open config (set_file path data w) path = true.
Proof. apply can_open_exists. simpl. by rewrite lookup_insert_eq. Qed.

Lemma write_profile_empty w name :
  can_open config w (profile_path config name) = true →
  write_profile config w name []
  = (true, set_file (profile_path config name) [] w).
Proof. unfold write_profile. by intros ->. Qed.

(** When the name list cannot be opened, nothing is written. *)
Lemma write_profile_closed w name keys :
  can_open config w (profile_path config name) = false →
  write_profile config w name keys = (false, w).
Proof. unfold write_profile. by intros ->. Qed.

(** *** The files of a profile *)

Lemma elem_of_artifacts name path :
  path ∈ artifacts config name ↔
  ∃ suffix, suffix ∈ artifact_suffixes
            ∧ path = path_join (profiles_dir config) (name ++ suffix).
Proof.
  unfold artifacts, artifact_suffixes, profile_path, profile_keys_path,
    profile_keys_plain_path.
  rewrite !elem_of_cons, elem_of_nil. split.
  - intros [->|[->|[->|[]]]]; eexists; (split; [|done]);
      rewrite !elem_of_cons; auto.
  - intros (suffix & Hs & ->). rewrite !elem_of_cons, elem_of_nil in Hs.
    destruct Hs as [->|[->|[->|[]]]]; auto.
Qed.

Lemma suffixed_inj (n1 n2 s1 s2 : text) :
  s1 ∈ artifact_suffixes → s2 ∈ artifact_suffixes →
  n1 ++ s1 = n2 ++ s2 → n1 = n2 ∧ s1 = s2.
Proof.
  unfold artifact_suffixes. rewrite !elem_of_cons, !elem_of_nil.
  intros [->|[->|[->|[]]]] [->|[->|[->|[]]]] H;
    first [ by apply app_inv_tail in H
          | apply (f_equal last) in H; rewrite !last_app in H;
            vm_compute in H; discriminate ].
Qed.

(** Profiles whose names do not begin with ["/"] have their files at
    different paths. *)
Lemma artifacts_disjoint n1 n2 p1 p2 :
  startswith SLASH n1 = false → startswith SLASH n2 = false → n1 ≠ n2 →
  p1 ∈ artifacts config n1 → p2 ∈ artifacts config n2 → p1 ≠ p2.
Proof.
  intros H1 H2 Hne Hp1 Hp2 Heq.
  apply elem_of_artifacts in Hp1 as (s1 & Hs1 & ->).
  apply elem_of_artifacts in Hp2 as (s2 & Hs2 & ->).
  assert (∀ s, s ∈ artifact_suffixes → startswith SLASH s = false) as Hs.
  { unfold artifact_suffixes. intros s. rewrite !elem_of_cons, elem_of_nil.
    by intros [->|[->|[->|[]]]]. }
  rewrite (path_join_relative _ (n1 ++ s1)),
    (path_join_relative _ (n2 ++ s2)) in Heq
    by (rewrite startswith_suffixed; auto).
  apply app_inv_head in Heq.
  by apply suffixed_inj in Heq as [? _].
Qed.

(** Within one profile the three files are at different paths, whatever
    the name. *)
Lemma name_list_path_differs name :
  profile_path config name ≠ profile_keys_path config name
  ∧ profile_path config name ≠ profile_keys_plain_path config name.
Proof.
  unfold profile_path, profile_keys_path, profile_keys_plain_path.
  destruct (startswith SLASH name) eqn:Hn.
  - rewrite !path_join_absolute by (by rewrite startswith_suffixed).
    split; intros H; by apply app_inv_head in H.
  - rewrite !(path_join_relative _ (name ++ _))
      by (by rewrite startswith_suffixed).
    split; intros H; by do 2 apply app_inv_head in H.
Qed.

Lemma keys_paths_differ name :
  profile_keys_path config name ≠ profile_keys_plain_path config name.
Proof.
  unfold profile_keys_path, profile_keys_plain_path.
  destruct (startswith SLASH name) eqn:Hn.
  - rewrite !path_join_absolute by (by rewrite startswith_suffixed).
    intros H. by apply app_inv_head in H.
  - rewrite !(path_join_relative _ (name ++ _))
      by (by rewrite startswith_suffixed).
    intros H. by do 2 apply app_inv_head in H.
Qed.

(** *** Loading and saving *)

Lemma decrypt_gpg_data_files w path :
  files (decrypt_gpg_data gpg config w path).2 = files w.
Proof. unfold decrypt_gpg_data. by case_ifs. Qed.

Lemma load_profile_keys_files w name :
  files (load_profile_keys gpg config w name).2 = files w.
Proof.
  unfold load_profile_keys.
  destruct (exists_ w (profile_keys_path config name)); [|by case_ifs].
  pose proof (decrypt_gpg_data_files w (profile_keys_path config name)) as Hd.
  destruct (decrypt_gpg_data _ _ _ _) as [data w']. by case_ifs.
Qed.

(** What is loaded depends on the two contents files only. *)
Lemma load_profile_keys_frame w1 w2 name :
  files w1 !! profile_keys_path config name
  = files w2 !! profile_keys_path config name →
  files w1 !! profile_keys_plain_path config name
  = files w2 !! profile_keys_plain_path config name →
  (load_profile_keys gpg config w1 name).1
  = (load_profile_keys gpg config w2 name).1.
Proof.
  intros He Hp. destruct w1 as [f1 c1 k1], w2 as [f2 c2 k2]. simpl in *.
  unfold load_profile_keys, decrypt_gpg_data, exists_, read_text. simpl.
  rewrite He.
  repeat match goal with |- context [if ?b then _ else _] =>
           destruct b; simpl; rewrite ?Hp end; done.
Qed.

Lemma load_profile_keys_ext w1 w2 name :
  files w1 = files w2 →
  (load_profile_keys gpg config w1 name).1
  = (load_profile_keys gpg config w2 name).1.
Proof. intros Hf. apply load_profile_keys_frame; by rewrite Hf. Qed.

Lemma decode_contents_nil : decode_contents [] = ∅.
Proof. done. Qed.

(** The part of [load_profile_keys] that follows the decryption. *)
Lemma load_fallback (data : option text) w plain_path :
  let data' :=
    if negb (truthy data) && exists_ w plain_path
    then read_text w plain_path else data in
  (if negb (truthy data') then ∅ else decode_contents (default [] data'))
  = decode_contents
      match data with
      | Some (c :: d) => c :: d
      | _ => default [] (read_text w plain_path)
      end.
Proof.
  assert (∀ o : option text,
            (if negb (truthy o) then ∅ else decode_contents (default [] o))
            = decode_contents (default [] o)) as Hdec.
  { by intros [[|??]|]. }
  assert (exists_ w plain_path = false → read_text w plain_path = None)
    as Hnone.
  { unfold exists_, read_text. intros H%bool_decide_eq_false.
    apply eq_None_not_Some in H. by rewrite H. }
  destruct data as [[|c d]|]; simpl; rewrite ?Hdec; try done;
    destruct (exists_ w plain_path) eqn:Hex; rewrite ?Hdec;
    try rewrite Hnone by done; done.
Qed.

(** The text that [load_profile_keys] decodes: the decrypted text when it
    is not empty, else the plain contents file when there is one. *)
Lemma load_profile_keys_resolution w name :
  let decrypted :=
    if exists_ w (profile_keys_path config name)
    then (decrypt_gpg_data gpg config w (profile_keys_path config name)).1
    else None in
  (load_profile_keys gpg config w name).1
  = decode_contents
      match decrypted with
      | Some (c :: data) => c :: data
      | _ => default [] (read_text w (profile_keys_plain_path config name))
      end.
Proof.
  intros decrypted. unfold load_profile_keys.
  pose proof (decrypt_gpg_data_files w (profile_keys_path config name)) as Hf.
  assert (∀ (b : bool) (x y : gmap text text) (u : World),
            (if b then (x, u) else (y, u)).1 = if b then x else y) as Hif
    by (by intros []).
  subst decrypted. destruct (exists_ w (profile_keys_path config name)).
  - destruct (decrypt_gpg_data _ _ _ _) as [data w']. simpl in Hf.
    rewrite Hif, load_fallback. simpl.
    by rewrite (read_text_ext w' w).
  - by rewrite Hif, load_fallback.
Qed.

(** A decryption that yields a non-empty text decides what is loaded. *)
Lemma load_profile_keys_decrypted w w' name c data :
  exists_ w (profile_keys_path config name) = true →
  decrypt_gpg_data gpg config w (profile_keys_path config name)
  = (Some (c :: data), w') →
  load_profile_keys gpg config w name = (decode_contents (c :: data), w').
Proof. intros Hex Hdec. unfold load_profile_keys. by rewrite Hex, Hdec. Qed.

Lemma encrypt_gpg_data_success w data path w' :
  encrypt_gpg_data gpg config w data path = (true, w') →
  ∃ cipher, files w' = <[path := cipher]> (files w).
Proof.
  unfold encrypt_gpg_data.
  repeat match goal with |- context [if ?b then _ else _] =>
           destruct b; [done|] end.
  destruct (gpg_symmetric gpg _ data) as [cipher|]; [|done].
  destruct (can_open config w path); [|done].
  intros [= <-]. by exists cipher.
Qed.

(** *** Listing the profiles *)

Lemma drop_prefix_Some p s r : drop_prefix p s = Some r ↔ s = p ++ r.
Proof.
  revert s. induction p as [|x p IH]; intros s; simpl.
  - split; [by intros [= ->]|by intros ->].
  - destruct s as [|y s]; [done|].
    destruct (N.eqb_spec x y) as [->|Hne].
    + rewrite IH. split; [by intros ->|by intros [= ->]].
    + split; [done|]. intros [= ? _]. congruence.
Qed.

Lemma entry_name_Some d path n :
  entry_name d path = Some n ↔
  path = path_join d [] ++ n ∧ n ≠ [] ∧ SLASH ∉ n.
Proof.
  unfold entry_name.
  destruct (drop_prefix (path_join d []) path) as [r|] eqn:Hr.
  - apply drop_prefix_Some in Hr as ->.
    destruct r as [|c r].
    + split; [done|]. intros (H & Hne & _). apply app_inv_head in H. congruence.
    + case_bool_decide as Hs.
      * split; [done|]. intros (H & _ & Hn). apply app_inv_head in H.
        congruence.
      * split; [by intros [= <-]|]. intros (H & _). apply app_inv_head in H.
        congruence.
  - split; [done|]. intros (H & _).
    apply drop_prefix_Some in H. congruence.
Qed.

Lemma endswith_text_Some suffix s :
  endswith_text suffix s = true ↔ ∃ n, s = n ++ suffix.
Proof.
  unfold endswith_text. rewrite bool_decide_eq_true. split.
  - intros [r Hr]. apply drop_prefix_Some in Hr. exists (rev r).
    rewrite <-(rev_involutive s), Hr, rev_app_distr. by rewrite rev_involutive.
  - intros [n ->]. exists (rev n). apply drop_prefix_Some.
    apply rev_app_distr.
Qed.

(** The file names that denote a profile, and the profile they denote. *)
Lemma profile_of_filename filename name :
  (if endswith_text (py ".profile") filename
   then Some (take (length filename - 8) filename) else None) = Some name
  ↔ filename = name ++ py ".profile".
Proof.
  destruct (endswith_text (py ".profile") filename) eqn:He.
  - apply endswith_text_Some in He as [n ->].
    rewrite length_app. change (length (py ".profile")) with 8%nat.
    replace (length n + 8 - 8)%nat with (length n) by lia.
    rewrite take_app_length. split.
    + by intros [= ->].
    + intros H. apply app_inv_tail in H. by subst.
  - split; [done|]. intros ->.
    assert (endswith_text (py ".profile") (name ++ py ".profile") = true)
      by (apply endswith_text_Some; eauto).
    congruence.
Qed.

(** A profile is listed when its name has no separator and its name-list
    file exists. *)
Lemma elem_of_list_profiles w name :
  name ∈ list_profiles config w ↔
  (SLASH ∉ name)
  ∧ is_Some (files w !! (path_join (profiles_dir config) []
                          ++ name ++ py ".profile")).
Proof.
  unfold list_profiles, listdir.
  rewrite merge_sort_Permutation, list_elem_of_omap.
  split.
  - intros (filename & Hin & Hname).
    apply profile_of_filename in Hname as ->.
    apply list_elem_of_omap in Hin as (path & Hpath & Hentry).
    apply entry_name_Some in Hentry as (-> & _ & Hslash).
    apply elem_of_elements, elem_of_dom in Hpath. split; [|done].
    intros Hn. apply Hslash, elem_of_app. by left.
  - intros (Hslash & Hfile). exists (name ++ py ".profile"). split.
    + apply list_elem_of_omap. eexists. split.
      * by apply elem_of_elements, elem_of_dom.
      * apply entry_name_Some. split_and!; [done|by destruct name|].
        rewrite elem_of_app. intros [?|Hin]; [done|].
        revert Hin. apply (bool_decide_unpack _). vm_compute. exact I.
    + by apply profile_of_filename.
Qed.

Lemma default_listed w :
  py "default" ∈ list_profiles config w
  ↔ is_Some (files w !! profile_path config (py "default")).
Proof.
  rewrite elem_of_list_profiles, (profile_path_relative _ (py "default"))
    by done.
  split; [by intros [_ ?]|]. intros H. split; [|done].
  apply (bool_decide_unpack _). vm_compute. exact I.
Qed.

Lemma NoDup_omap_inj {A B} (f : A → option B) (l : list A) :
  (∀ x y z, f x = Some z → f y = Some z → x = y) →
  NoDup l → NoDup (omap f l).
Proof.
  intros Hinj. induction 1 as [|x l Hx _ IH]; simpl; [constructor|].
  destruct (f x) as [z|] eqn:Hz; [|done].
  constructor; [|done]. rewrite list_elem_of_omap.
  intros (y & Hy & Hfy). by rewrite (Hinj x y z) in Hx.
Qed.

(** No profile is listed twice. *)
Lemma NoDup_list_profiles w : NoDup (list_profiles config w).
Proof.
  unfold list_profiles, listdir. rewrite merge_sort_Permutation.
  apply NoDup_omap_inj.
  { intros x y z Hx Hy. apply profile_of_filename in Hx, Hy. congruence. }
  apply NoDup_omap_inj; [|apply NoDup_elements].
  intros x y z Hx Hy. apply entry_name_Some in Hx as [-> _].
  by apply entry_name_Some in Hy as [-> _].
Qed.

(** *** Files that can be opened *)

Lemma entry_name_join d n :
  n ≠ [] → (SLASH ∉ n) → entry_name d (path_join d n) = Some n.
Proof.
  intros Hne Hn. apply entry_name_Some. split_and!; [|done..].
  by apply path_join_relative, not_startswith_slash.
Qed.

(** Directly inside the profiles directory the name decides. *)
Lemma can_create_direct w n :
  n ≠ [] → (SLASH ∉ n) →
  can_create config w (path_join (profiles_dir config) n) = valid_name n.
Proof. intros Hne Hn. unfold can_create. by rewrite entry_name_join. Qed.

Lemma suffix_without_slash suffix :
  suffix ∈ artifact_suffixes → suffix ≠ [] ∧ (SLASH ∉ suffix).
Proof.
  unfold artifact_suffixes. rewrite !elem_of_cons, elem_of_nil.
  intros [->|[->|[->|[]]]]; (split; [done|]);
    apply (bool_decide_unpack _); vm_compute; exact I.
Qed.

(** The files of a profile whose name has no separator can be opened
    when their names are valid. *)
Lemma can_open_direct w name suffix :
  (SLASH ∉ name) → suffix ∈ artifact_suffixes →
  valid_name (name ++ suffix) = true →
  can_open config w (path_join (profiles_dir config) (name ++ suffix)) = true.
Proof.
  intros Hname [Hne Hs]%suffix_without_slash Hvalid. unfold can_open.
  rewrite can_create_direct, Hvalid; [apply orb_true_r|by destruct name|].
  rewrite elem_of_app. by intros [?|?].
Qed.

Lemma valid_profile_name_spec w name :
  valid_profile_name name = true →
  (SLASH ∉ name)
  ∧ ∀ path, path ∈ artifacts config name → can_open config w path = true.
Proof.
  unfold valid_profile_name. rewrite andb_true_iff, negb_true_iff.
  rewrite bool_decide_eq_false, forallb_forall. intros [Hname Hvalid].
  split; [done|]. intros path (suffix & Hs & ->)%elem_of_artifacts.
  apply can_open_direct; [done..|]. by apply Hvalid, list_elem_of_In.
Qed.

Lemma can_open_default w :
  can_open config w (profile_path config (py "default")) = true.
Proof.
  apply can_open_direct.
  - apply (bool_decide_unpack _). vm_compute. exact I.
  - unfold artifact_suffixes. by left.
  - vm_compute. reflexivity.
Qed.

(** *** The default profile *)

Lemma ensure_default_profile_listed w :
  py "default" ∈ list_profiles config w →
  ensure_default_profile config w = w.
Proof.
  intros H. unfold ensure_default_profile.
  by rewrite bool_decide_eq_true_2.
Qed.

Lemma ensure_default_profile_creates w :
  py "default" ∉ list_profiles config w →
  ensure_default_profile config w
  = set_file (profile_path config (py "default")) [] w.
Proof.
  intros H. unfold ensure_default_profile.
  rewrite bool_decide_eq_false_2 by done.
  by rewrite write_profile_empty by apply can_open_default.
Qed.

Lemma ensure_default_profile_lists w :
  py "default" ∈ list_profiles config (ensure_default_profile config w).
Proof.
  destruct (decide (py "default" ∈ list_profiles config w)) as [H|H].
  - by rewrite ensure_default_profile_listed.
  - rewrite ensure_default_profile_creates by done.
    apply default_listed. simpl. by rewrite lookup_insert_eq.
Qed.

(** *** Operations that never remove a file *)

Lemma grows_refl w : grows w w.
Proof. by intros path. Qed.

Lemma grows_trans w1 w2 w3 : grows w1 w2 → grows w2 w3 → grows w1 w3.
Proof. intros H1 H2 path Hp. by apply H2, H1. Qed.

Lemma grows_files w w' : files w' = files w → grows w w'.
Proof. intros Hf path. by rewrite Hf. Qed.

Lemma grows_set_file path data w : grows w (set_file path data w).
Proof.
  intros q Hq. simpl. destruct (decide (path = q)) as [->|Hne].
  - by rewrite lookup_insert_eq.
  - by rewrite lookup_insert_ne.
Qed.

Lemma grows_set_file_trans path data w w' :
  grows w w' → grows w (set_file path data w').
Proof. intros H. eapply grows_trans; [exact H|apply grows_set_file]. Qed.

#[local] Hint Resolve grows_refl grows_set_file grows_set_file_trans : grows.

Lemma write_profile_grows w name keys :
  grows w (write_profile config w name keys).2.
Proof.
  unfold write_profile. destruct (can_open _ _ _); [|apply grows_refl].
  destruct (write_lines _ _) as [buf ok]. simpl. auto with grows.
Qed.

Lemma write_profile_grows_trans w w' name keys :
  grows w w' → grows w (write_profile config w' name keys).2.
Proof. intros H. eapply grows_trans; [exact H|apply write_profile_grows]. Qed.

#[local] Hint Resolve write_profile_grows write_profile_grows_trans : grows.

Lemma encrypt_gpg_data_grows w data path :
  grows w (encrypt_gpg_data gpg config w data path).2.
Proof.
  unfold encrypt_gpg_data.
  repeat match goal with |- context [if ?b then _ else _] =>
           destruct b; [apply grows_refl|] end.
  destruct (gpg_symmetric gpg _ data) as [cipher|]; simpl;
    [destruct (can_open _ _ _); simpl|].
  - apply grows_set_file_trans. by apply grows_files.
  - by apply grows_files.
  - by apply grows_files.
Qed.

Lemma load_profile_keys_grows w name :
  grows w (load_profile_keys gpg config w name).2.
Proof. apply grows_files, load_profile_keys_files. Qed.

Lemma save_profile_keys_grows w name keys :
  grows w (save_profile_keys gpg config w name keys).2.
Proof.
  unfold save_profile_keys.
  destruct (encode_contents keys) as [data|]; [|apply grows_refl].
  pose proof (encrypt_gpg_data_grows w data (profile_keys_path config name))
    as He.
  destruct (encrypt_gpg_data _ _ _ _ _) as [encrypted w1]. simpl in He.
  destruct encrypted; [done|]. case_ifs; auto with grows.
Qed.

(** Loading and then saving, as the three key operations do. *)
Lemma load_save_grows (w : World) (name : text)
    (f : gmap text text → gmap text text) :
  grows w (save_profile_keys gpg config
             (load_profile_keys gpg config w name).2 name
             (f (load_profile_keys gpg config w name).1)).2.
Proof.
  eapply grows_trans; [apply load_profile_keys_grows|].
  apply save_profile_keys_grows.
Qed.

Lemma ensure_default_profile_grows w :
  grows w (ensure_default_profile config w).
Proof.
  unfold ensure_default_profile. case_bool_decide; auto with grows.
Qed.

Lemma add_profile_key_grows w profile data :
  grows w (add_profile_key gpg config w profile data).2.
Proof.
  unfold add_profile_key.
  destruct (req_name data) as [key_name|]; [|apply grows_refl].
  destruct (req_value data) as [key_value|]; [|apply grows_refl].
  pose proof (load_save_grows w profile (insert key_name key_value)) as H.
  destruct (load_profile_keys _ _ _ _) as [keys w1].
  destruct (save_profile_keys _ _ _ _ _) as [saved w2]. simpl in H.
  destruct saved; [|done]. simpl. case_bool_decide; auto with grows.
Qed.

Lemma update_profile_key_grows w profile key data :
  grows w (update_profile_key gpg config w profile key data).2.
Proof.
  unfold update_profile_key.
  destruct (req_value data) as [key_value|]; [|apply grows_refl].
  pose proof (load_save_grows w profile (insert key key_value)) as H.
  destruct (load_profile_keys _ _ _ _) as [keys w1].
  destruct (save_profile_keys _ _ _ _ _) as [saved w2]. simpl in H.
  by destruct saved.
Qed.

Lemma delete_profile_key_grows w profile key :
  grows w (delete_profile_key gpg config w profile key).2.
Proof.
  unfold delete_profile_key.
  pose proof (load_profile_keys_grows w profile) as Hl.
  pose proof (load_save_grows w profile (delete key)) as H.
  destruct (load_profile_keys _ _ _ _) as [keys w1]. simpl in Hl.
  case_bool_decide; [|done].
  destruct (save_profile_keys _ _ _ _ _) as [saved w2]. simpl in H.
  destruct saved; [|done]. simpl. case_bool_decide; auto with grows.
Qed.

Lemma create_profile_grows w data :
  grows w (create_profile config w data).2.
Proof.
  unfold create_profile. destruct data as [name|]; [|apply grows_refl].
  case_bool_decide; [apply grows_refl|].
  pose proof (write_profile_grows w name []) as Hw.
  destruct (write_profile _ _ _ _) as [written w1]. simpl in Hw.
  by destruct written.
Qed.

(** [delete_profile] removes only the files of the profile it is given. *)
Lemma delete_profile_keeps w name path :
  path ∉ artifacts config name →
  files (delete_profile config w name).2 !! path = files w !! path.
Proof.
  intros Hpath. unfold delete_profile. case_bool_decide; [done|].
  simpl. rewrite !unlink_if_exists. simpl.
  unfold artifacts in Hpath. rewrite !not_elem_of_cons in Hpath.
  destruct Hpath as (H1 & H2 & H3 & _).
  by rewrite !lookup_delete_ne.
Qed.

(** One operation keeps every file of the default profile in place. *)
Lemma step_keeps_default w o path :
  separator_free o → path ∈ artifacts config (py "default") →
  is_Some (files w !! path) → is_Some (files (step gpg config w o) !! path).
Proof.
  intros Ho Hpath. destruct o; simpl; try done.
  - apply write_profile_grows.
  - apply load_profile_keys_grows.
  - apply save_profile_keys_grows.
  - apply add_profile_key_grows.
  - apply update_profile_key_grows.
  - apply delete_profile_key_grows.
  - apply create_profile_grows.
  - destruct (decide (name = py "default")) as [->|Hne].
    + unfold delete_profile. by rewrite bool_decide_eq_true_2.
    + rewrite delete_profile_keeps; [done|]. intros Hin. simpl in Ho.
      eapply (artifacts_disjoint name (py "default") path path);
        eauto using not_startswith_slash.
  - apply ensure_default_profile_grows.
Qed.

Lemma run_keeps_default w ops path :
  Forall separator_free ops → path ∈ artifacts config (py "default") →
  is_Some (files w !! path) →
  is_Some (files (run gpg config w ops) !! path).
Proof.
  intros Hops Hpath. revert w.
  induction Hops as [|o ops Ho _ IH]; intros w Hw; [done|].
  simpl. apply IH. by apply step_keeps_default.
Qed.

(** *** Name lists *)

Lemma write_lines_encodable buf keys :
  Forall (λ key, encodable key = true) keys →
  write_lines buf keys = (buf ++ concat ((λ key, key ++ [LF]) <$> keys), true).
Proof.
  intros H. revert buf. induction H as [|key keys Hk _ IH]; intros buf; simpl.
  - by rewrite app_nil_r.
  - rewrite Hk, IH. by rewrite <-!app_assoc.
Qed.

Lemma unique_keys_spec (keys : list text) :
  let unique_keys :=
    merge_sort text_le (elements (list_to_set keys : gset text)) in
  Sorted text_le unique_keys ∧ NoDup unique_keys
  ∧ ∀ key, key ∈ unique_keys ↔ key ∈ keys.
Proof.
  intros unique_keys. split_and!.
  - apply (Sorted_merge_sort text_le).
  - unfold unique_keys. rewrite merge_sort_Permutation. apply NoDup_elements.
  - intros key. unfold unique_keys.
    rewrite merge_sort_Permutation, elem_of_elements.
    apply elem_of_list_to_set.
Qed.

Lemma write_profile_listable w name keys :
  can_open config w (profile_path config name) = true →
  Forall (λ key, listable key = true) keys →
  write_profile config w name keys
  = (true,
     set_file (profile_path config name)
       (concat ((λ key, key ++ [LF])
                <$> merge_sort text_le
                      (elements (list_to_set keys : gset text)))) w)
  ∧ read_profile config (write_profile config w name keys).2 name
    = merge_sort text_le (elements (list_to_set keys : gset text)).
Proof.
  intros Hopen Hkeys.
  destruct (unique_keys_spec keys) as (_ & _ & Hin).
  set (unique_keys := merge_sort _ _) in *.
  assert (Forall (λ key, listable key = true) unique_keys) as Hu.
  { rewrite Forall_forall in Hkeys. apply Forall_forall.
    intros key Hk. by apply Hkeys, Hin. }
  assert (write_profile config w name keys
          = (true, set_file (profile_path config name)
               (concat ((λ key, key ++ [LF]) <$> unique_keys)) w)) as Hw.
  { unfold write_profile. fold unique_keys. rewrite Hopen.
    rewrite write_lines_encodable; [done|].
    eapply Forall_impl; [exact Hu|]. intros key Hk.
    by apply listable_spec in Hk as (_&_&_&_&?). }
  split; [done|]. rewrite Hw. unfold read_profile, read_text. simpl.
  rewrite lookup_insert_eq. simpl. by apply read_written_lines.
Qed.

Lemma can_open_p w : can_open config w (profile_path config (py "p")) = true.
Proof.
  apply can_open_direct.
  - apply (bool_decide_unpack _). vm_compute. exact I.
  - unfold artifact_suffixes. by left.
  - vm_compute. reflexivity.
Qed.

(** Key names a name list does not carry: an empty name, a name with a
    carriage return, a name with a lone surrogate. *)
Example name_list_drops_empty w :
  read_profile config (write_profile config w (py "p") [[]]).2 (py "p") = [].
Proof.
  unfold write_profile. rewrite can_open_p.
  set (u := merge_sort _ _). vm_compute in u. subst u.
  unfold read_profile, read_text. vm_compute write_lines. simpl files.
  rewrite lookup_insert_eq. vm_compute. reflexivity.
Qed.

Example name_list_splits_cr w :
  read_profile config
    (write_profile config w (py "p") [py "a" ++ CR :: py "b"]).2 (py "p")
  = [py "a"; py "b"].
Proof.
  unfold write_profile. rewrite can_open_p.
  set (u := merge_sort _ _). vm_compute in u. subst u.
  unfold read_profile, read_text. vm_compute write_lines. simpl files.
  rewrite lookup_insert_eq. vm_compute. reflexivity.
Qed.

Example name_list_surrogate w :
  write_profile config w (py "p") [py "a"; [0xE000]; [0xD800]]
  = (false, set_file (profile_path config (py "p")) (py "a" ++ [LF]) w).
Proof.
  unfold write_profile. rewrite can_open_p.
  set (u := merge_sort _ _). vm_compute in u. subst u.
  vm_compute write_lines. reflexivity.
Qed.

End Storage.

(** * The claims *)

(** C1, as stated: decoding the encoding of any mapping with encodable
    values gives the mapping back, whatever the key names.  This fails for
    the one-entry mapping whose key is ["#k"]: its line starts with ["#"]
    and is skipped as a comment. *)
Lemma C1_roundtrip_counterexample :
  ¬ (∀ (keys : gmap text text) (data : text),
       encode_contents keys = Some data → decode_contents data = keys).
Proof.
  intros H.
  specialize (H {[ py "#k" := py "v" ]} (py "#k=dg==" ++ [LF])).
  assert (encode_contents {[ py "#k" := py "v" ]}
          = Some (py "#k=dg==" ++ [LF])) as Henc by (vm_compute; reflexivity).
  apply H in Henc.
  apply (f_equal (λ m : gmap text text, m !! py "#k")) in Henc.
  vm_compute in Henc. discriminate.
Qed.

(** C1, as amended: for a mapping whose values encode as UTF-8, decoding
    the encoded text gives the mapping back exactly when every key name is
    plain: it does not begin with white space or ["#"] and contains neither
    ["="] nor a line feed. *)
Theorem C1_roundtrip_iff_plain_keys (keys : gmap text text) (data : text) :
  encode_contents keys = Some data →
  (decode_contents data = keys
   ↔ map_Forall (λ key _, plain_key key = true) keys).
Proof.
  intros Henc. split.
  - intros <-. apply decode_contents_plain.
  - intros Hkeys. by apply decode_encode_contents.
Qed.

Lemma C1_roundtrip_witness :
  encode_contents {[ py "OPENAI_KEY" := py "abc123" ]}
  = Some (py "OPENAI_KEY=YWJjMTIz" ++ [LF])
  ∧ decode_contents (py "OPENAI_KEY=YWJjMTIz" ++ [LF])
    = {[ py "OPENAI_KEY" := py "abc123" ]}.
Proof.
  assert (encode_contents {[ py "OPENAI_KEY" := py "abc123" ]}
          = Some (py "OPENAI_KEY=YWJjMTIz" ++ [LF])) as Henc
    by (vm_compute; reflexivity).
  split; [exact Henc|].
  apply (C1_roundtrip_iff_plain_keys _ _ Henc).
  apply map_Forall_singleton. vm_compute. reflexivity.
Defined.

(** C2: a decryption that succeeds is authoritative.  The code tests the
    decrypted text for truth, so a decryption that succeeds with the empty
    text, which is what an emptied profile encrypts to, falls through to
    the plain contents file.  In [emptied_world] every key of ["default"]
    has been deleted with encryption in use: the name list is empty and the
    encrypted file decrypts to the empty text, which decodes to the empty
    mapping; loading nevertheless returns the key of the stale plain
    file. *)
Theorem C2_empty_decryption_falls_through :
  exists_ emptied_world (profile_keys_path sample_config (py "default"))
  = true
  ∧ (decrypt_gpg_data sample_gpg sample_config emptied_world
       (profile_keys_path sample_config (py "default"))).1 = Some []
  ∧ decode_contents [] = ∅
  ∧ read_profile sample_config emptied_world (py "default") = []
  ∧ (load_profile_keys sample_gpg sample_config emptied_world
       (py "default")).1 = {[ py "K" := py "v" ]}.
Proof. split_and!; vm_compute; reflexivity. Qed.

(** C3, as stated: with [AK_DISABLE_GPG] set to a truthy value the
    availability flag is false and no version probe runs.  With the
    variable set to ["Yes"] and a working [gpg], the flag is true and the
    probe has run. *)
Lemma C3_disable_flag_counterexample :
  ¬ (∀ (p : Process) (gpg : GPG) (w : World) (v : text),
       environ p !! py "AK_DISABLE_GPG" = Some v →
       lower v ∈ [py "1"; py "true"; py "yes"] →
       gpg_available (AKConfig_init p gpg w).1 = false
       ∧ calls (AKConfig_init p gpg w).2 = calls w).
Proof.
  intros H.
  destruct (H sample_process_disabled sample_gpg empty_world (py "Yes"))
    as [Hflag _].
  - vm_compute. reflexivity.
  - apply (bool_decide_unpack _). vm_compute. exact I.
  - vm_compute in Hflag. discriminate.
Qed.

(** C3, as amended: a truthy [AK_DISABLE_GPG] sets [force_plain], and with
    it [encrypt_gpg_data] and [decrypt_gpg_data] fail without starting
    [gpg]; the [gpg_available] value that the health probe reports is the
    outcome of the version probe, which runs once in every case. *)
Theorem C3_disable_flag_forces_plain (p : Process) (gpg : GPG) (w : World)
    (v : text) :
  environ p !! py "AK_DISABLE_GPG" = Some v →
  lower v ∈ [py "1"; py "true"; py "yes"] →
  let config := (AKConfig_init p gpg w).1 in
  force_plain config = true
  ∧ gpg_available config = gpg_version gpg
  ∧ health_gpg_available (health_check config) = gpg_version gpg
  ∧ calls (AKConfig_init p gpg w).2 = calls w ++ [GpgVersion]
  ∧ (∀ w' data path, encrypt_gpg_data gpg config w' data path = (false, w'))
  ∧ (∀ w' path, decrypt_gpg_data gpg config w' path = (None, w')).
Proof.
  intros Hv Hin config.
  assert (force_plain config = true) as Hforce.
  { unfold config, AKConfig_init, getenv. simpl. rewrite Hv.
    by apply bool_decide_eq_true_2. }
  split_and!; try done.
  - intros w' data path. unfold encrypt_gpg_data. rewrite Hforce.
    by rewrite orb_true_r.
  - intros w' path. unfold decrypt_gpg_data. rewrite Hforce.
    by rewrite orb_true_r.
Qed.

Lemma C3_disable_flag_witness :
  force_plain sample_config_plain = true
  ∧ gpg_available sample_config_plain = true
  ∧ calls (AKConfig_init sample_process_disabled sample_gpg empty_world).2
    = [GpgVersion].
Proof.
  destruct (C3_disable_flag_forces_plain sample_process_disabled sample_gpg
              empty_world (py "Yes")) as (H1 & H2 & _ & H4 & _).
  - vm_compute. reflexivity.
  - apply (bool_decide_unpack _). vm_compute. exact I.
  - split_and!; [exact H1|exact H2|exact H4].
Defined.

(** C4: [delete_profile] with the name ["default"] answers 400 and leaves
    the state as it is, so none of the three files of the default profile
    is removed or modified; and no sequence of operations removes a file
    of the default profile, so the default profile that initialization
    makes stays listed.  The names given to [delete_profile] are those the
    route [/api/profiles/<profile_name>] delivers, which contain no path
    separator. *)
Theorem C4_default_profile_guard (gpg : GPG) (config : AKConfig) (w : World)
    (ops : list op) :
  Forall separator_free ops →
  delete_profile config w (py "default")
  = ({| status := 400; body := "Cannot delete default profile" |}, w)
  ∧ (∀ path, path ∈ artifacts config (py "default") →
       is_Some (files w !! path) →
       is_Some (files (run gpg config w ops) !! path))
  ∧ (py "default" ∈ list_profiles config w →
     py "default" ∈ list_profiles config (run gpg config w ops))
  ∧ py "default"
    ∈ list_profiles config
        (run gpg config (ensure_default_profile config w) ops).
Proof.
  intros Hops.
  assert (∀ w0, py "default" ∈ list_profiles config w0 →
                py "default" ∈ list_profiles config (run gpg config w0 ops))
    as Hlisted.
  { intros w0. rewrite !default_listed. apply run_keeps_default; [done|].
    unfold artifacts. apply list_elem_of_here. }
  split_and!.
  - done.
  - intros path. by apply run_keeps_default.
  - apply Hlisted.
  - apply Hlisted, ensure_default_profile_lists.
Qed.

Lemma C4_default_profile_witness :
  py "default"
  ∈ list_profiles sample_config
      (run sample_gpg sample_config plain_world
         [DeleteProfile (py "default"); DeleteProfile (py "work");
          DeleteKey (py "default") (py "K")]).
Proof.
  destruct (C4_default_profile_guard sample_gpg sample_config plain_world
              [DeleteProfile (py "default"); DeleteProfile (py "work");
               DeleteKey (py "default") (py "K")]) as (_ & _ & H & _).
  - repeat constructor; simpl; apply (bool_decide_unpack _);
      vm_compute; exact I.
  - apply H. apply (bool_decide_unpack _). vm_compute. exact I.
Defined.

(** C5: when the encryption step of [save_profile_keys] succeeds, the call
    writes the encrypted contents file and nothing else: every other file,
    and in particular the plain contents file of the profile, is as it was
    before the call. *)
Theorem C5_encrypted_save_keeps_plaintext (gpg : GPG) (config : AKConfig)
    (w w' : World) (name : text) (keys : gmap text text) (data : text) :
  encode_contents keys = Some data →
  encrypt_gpg_data gpg config w data (profile_keys_path config name)
  = (true, w') →
  save_profile_keys gpg config w name keys = (true, w')
  ∧ (∃ cipher,
       files w' = <[profile_keys_path config name := cipher]> (files w))
  ∧ files w' !! profile_keys_plain_path config name
    = files w !! profile_keys_plain_path config name
  ∧ (∀ path, path ≠ profile_keys_path config name →
       files w' !! path = files w !! path).
Proof.
  intros Hdata Henc.
  destruct (encrypt_gpg_data_success _ _ _ _ _ _ Henc) as [cipher Hfiles].
  split_and!.
  - unfold save_profile_keys. by rewrite Hdata, Henc.
  - by exists cipher.
  - rewrite Hfiles. apply lookup_insert_ne, keys_paths_differ.
  - intros path Hpath. rewrite Hfiles. by apply lookup_insert_ne.
Qed.

Lemma C5_encrypted_save_witness :
  files (save_profile_keys sample_gpg sample_config plain_world
           (py "default") {[ py "K2" := py "v2" ]}).2
    !! profile_keys_plain_path sample_config (py "default")
  = Some (py "K=dg==" ++ [LF]).
Proof.
  pose (w' := set_file (profile_keys_path sample_config (py "default"))
                (0 :: py "K2=djI=" ++ [LF])
                (log (GpgSymmetric
                        (profile_keys_path sample_config (py "default")))
                   plain_world)).
  destruct (C5_encrypted_save_keeps_plaintext sample_gpg sample_config
              plain_world w' (py "default") {[ py "K2" := py "v2" ]}
              (py "K2=djI=" ++ [LF])) as (Hsave & _ & Hplain & _).
  - vm_compute. reflexivity.
  - vm_compute. reflexivity.
  - rewrite Hsave. etrans; [exact Hplain|]. vm_compute. reflexivity.
Defined.

(** C6: deleting a key that the loaded mapping does not hold answers 404
    and writes nothing: the files are unchanged, so the mapping and the
    name list of the profile read back as before. *)
Theorem C6_delete_missing_key (gpg : GPG) (config : AKConfig) (w : World)
    (profile key : text) :
  (load_profile_keys gpg config w profile).1 !! key = None →
  (delete_profile_key gpg config w profile key).1
  = {| status := 404; body := "Key not found" |}
  ∧ files (delete_profile_key gpg config w profile key).2 = files w
  ∧ (load_profile_keys gpg config
       (delete_profile_key gpg config w profile key).2 profile).1
    = (load_profile_keys gpg config w profile).1
  ∧ read_profile config (delete_profile_key gpg config w profile key).2
      profile
    = read_profile config w profile.
Proof.
  intros Hkey.
  assert (delete_profile_key gpg config w profile key
          = ({| status := 404; body := "Key not found" |},
             (load_profile_keys gpg config w profile).2)) as ->.
  { unfold delete_profile_key.
    destruct (load_profile_keys gpg config w profile) as [keys w'].
    simpl in *. rewrite bool_decide_eq_false_2; [done|].
    rewrite Hkey. by intros [??]. }
  pose proof (load_profile_keys_files gpg config w profile) as Hfiles.
  simpl. split_and!; try done.
  - by apply load_profile_keys_ext.
  - by apply read_profile_ext.
Qed.

Lemma C6_delete_missing_key_witness :
  (delete_profile_key sample_gpg sample_config plain_world (py "default")
     (py "NOPE")).1
  = {| status := 404; body := "Key not found" |}
  ∧ (load_profile_keys sample_gpg sample_config
       (delete_profile_key sample_gpg sample_config plain_world
          (py "default") (py "NOPE")).2 (py "default")).1
    = {[ py "K" := py "v" ]}.
Proof.
  destruct (C6_delete_missing_key sample_gpg sample_config plain_world
              (py "default") (py "NOPE")) as (H1 & _ & H3 & _).
  - vm_compute. reflexivity.
  - split; [exact H1|]. rewrite H3. vm_compute. reflexivity.
Defined.

(** C7: [ensure_default_profile] is idempotent.  It leaves the state alone
    when ["default"] is listed and otherwise creates an empty name list for
    it, after which ["default"] is listed exactly once; neither the first
    nor a second call changes the key contents of the default profile, and
    a second call does not change the list of profiles. *)
Theorem C7_ensure_default_profile_idempotent (gpg : GPG)
    (config : AKConfig) (w : World) :
  let w1 := ensure_default_profile config w in
  let w2 := ensure_default_profile config w1 in
  w2 = w1
  ∧ (py "default" ∈ list_profiles config w → w1 = w)
  ∧ (py "default" ∉ list_profiles config w →
     w1 = set_file (profile_path config (py "default")) [] w
     ∧ read_profile config w1 (py "default") = [])
  ∧ py "default" ∈ list_profiles config w1
  ∧ NoDup (list_profiles config w1)
  ∧ list_profiles config w2 = list_profiles config w1
  ∧ (load_profile_keys gpg config w1 (py "default")).1
    = (load_profile_keys gpg config w (py "default")).1
  ∧ (load_profile_keys gpg config w2 (py "default")).1
    = (load_profile_keys gpg config w1 (py "default")).1.
Proof.
  intros w1 w2.
  assert (w2 = w1) as Hidem.
  { apply ensure_default_profile_listed, ensure_default_profile_lists. }
  split_and!.
  - done.
  - apply ensure_default_profile_listed.
  - intros Hnew. unfold w1.
    rewrite ensure_default_profile_creates by done. split; [done|].
    unfold read_profile, read_text. simpl. by rewrite lookup_insert_eq.
  - apply ensure_default_profile_lists.
  - apply NoDup_list_profiles.
  - by rewrite Hidem.
  - destruct (decide (py "default" ∈ list_profiles config w)) as [H|H].
    + unfold w1. by rewrite ensure_default_profile_listed.
    + unfold w1. rewrite ensure_default_profile_creates by done.
      destruct (name_list_path_differs config (py "default")) as [H1 H2].
      apply load_profile_keys_frame; simpl; by rewrite lookup_insert_ne.
  - by rewrite Hidem.
Qed.

Lemma C7_ensure_default_profile_witness :
  ensure_default_profile sample_config empty_world
  = set_file (profile_path sample_config (py "default")) [] empty_world
  ∧ ensure_default_profile sample_config plain_world = plain_world.
Proof.
  destruct (C7_ensure_default_profile_idempotent sample_gpg sample_config
              empty_world) as (_ & _ & H1 & _).
  destruct (C7_ensure_default_profile_idempotent sample_gpg sample_config
              plain_world) as (_ & H2 & _).
  split.
  - apply H1. vm_compute. apply not_elem_of_nil.
  - apply H2. apply (bool_decide_unpack _). vm_compute. exact I.
Defined.

(** C8, as stated: for every list of key names, reading the name list back
    after writing it gives the sorted list of the distinct names.  A name
    with surrounding white space does not come back: writing [" a"] and
    reading gives ["a"]. *)
Lemma C8_name_list_counterexample :
  ¬ (∀ (config : AKConfig) (w : World) (name : text) (keys : list text),
       read_profile config (write_profile config w name keys).2 name
       = merge_sort text_le (elements (list_to_set keys : gset text))).
Proof.
  intros H.
  specialize (H sample_config empty_world (py "p") [py " a"]).
  vm_compute in H. discriminate.
Qed.

(** C8, as amended: [write_profile] returns [False] and writes nothing when
    the name-list file cannot be opened for writing; it can be opened
    whenever the profile name has no path separator and gives a valid file
    name.  When the file can be opened, then for every list of key names
    that are not empty, have no surrounding white space, contain no line
    feed or carriage return and can be encoded, [write_profile] succeeds
    and replaces the name-list file by one line per distinct name whatever
    the file held before, and [read_profile] then returns the distinct
    names in sorted order; writing b, a, a and reading yields a, b. *)
Theorem C8_name_list_normalised (config : AKConfig) (w : World)
    (name : text) (keys : list text) :
  Forall (λ key, listable key = true) keys →
  let path := profile_path config name in
  let w' := (write_profile config w name keys).2 in
  ((SLASH ∉ name) → valid_name (name ++ py ".profile") = true →
   can_open config w path = true)
  ∧ (can_open config w path = false →
     write_profile config w name keys = (false, w))
  ∧ (can_open config w path = true →
     (write_profile config w name keys).1 = true
     ∧ (∀ w0, can_open config w0 path = true →
              files (write_profile config w0 name keys).2 !! path
              = files w' !! path)
     ∧ Sorted text_le (read_profile config w' name)
     ∧ NoDup (read_profile config w' name)
     ∧ (∀ key, key ∈ read_profile config w' name ↔ key ∈ keys)
     ∧ read_profile config
         (write_profile config w name [py "b"; py "a"; py "a"]).2 name
       = [py "a"; py "b"]).
Proof.
  intros Hkeys path w'. split_and!.
  - intros Hname Hvalid. apply can_open_direct; [done| |done].
    unfold artifact_suffixes. by left.
  - apply write_profile_closed.
  - intros Hopen.
    destruct (write_profile_listable config w name keys Hopen Hkeys)
      as [Hw Hr].
    destruct (unique_keys_spec keys) as (Hsorted & Hnodup & Hin).
    fold w' in Hr. rewrite Hr. split_and!; try done.
    + by rewrite Hw.
    + intros w0 Hopen0. unfold w'.
      destruct (write_profile_listable config w0 name keys Hopen0 Hkeys)
        as [-> _].
      rewrite Hw. simpl. by rewrite !lookup_insert_eq.
    + destruct (write_profile_listable config w name
                  [py "b"; py "a"; py "a"] Hopen) as [_ ->].
      * repeat constructor.
      * vm_compute. reflexivity.
Qed.

Lemma C8_name_list_witness :
  (write_profile sample_config plain_world (py "work")
     [py "OPENAI_KEY"; py "GITHUB_TOKEN"; py "OPENAI_KEY"]).1 = true
  ∧ NoDup (read_profile sample_config
             (write_profile sample_config plain_world (py "work")
                [py "OPENAI_KEY"; py "GITHUB_TOKEN"; py "OPENAI_KEY"]).2
             (py "work"))
  ∧ write_profile sample_config plain_world (py "nodir/x")
      [py "OPENAI_KEY"; py "GITHUB_TOKEN"; py "OPENAI_KEY"]
    = (false, plain_world).
Proof.
  destruct (C8_name_list_normalised sample_config plain_world (py "work")
              [py "OPENAI_KEY"; py "GITHUB_TOKEN"; py "OPENAI_KEY"])
    as (Hopen & _ & H).
  { repeat constructor. }
  destruct (C8_name_list_normalised sample_config plain_world (py "nodir/x")
              [py "OPENAI_KEY"; py "GITHUB_TOKEN"; py "OPENAI_KEY"])
    as (_ & Hclosed & _).
  { repeat constructor. }
  destruct H as (Hok & _ & _ & Hnodup & _).
  - apply Hopen; [|vm_compute; reflexivity].
    apply (bool_decide_unpack _). vm_compute. exact I.
  - split_and!; [exact Hok|exact Hnodup|].
    apply Hclosed. vm_compute. reflexivity.
Defined.

(** C9, as stated: for every name the name-list path is the profiles
    directory, a separator, the name and [".profile"].  For the name
    ["/tmp/x"] the path is ["/tmp/x.profile"]: [os.path.join] drops the
    directory when its second argument is absolute. *)
Lemma C9_profile_path_counterexample :
  ¬ (∀ (p : Process) (gpg : GPG) (w : World) (name : text),
       let config := (AKConfig_init p gpg w).1 in
       profile_path config name
       = profiles_dir config ++ SLASH :: name ++ py ".profile").
Proof.
  intros H.
  specialize (H sample_process sample_gpg empty_world (py "/tmp/x")).
  vm_compute in H. discriminate.
Qed.

(** C9, as amended: profile names reach the file system unchecked.  The
    name-list path is [os.path.join] of the profiles directory and the
    name with [".profile"] appended: the directory, a separator and that
    file name when the name does not begin with ["/"] (whatever else it
    contains), and the file name alone when it does.  For every name that
    is not listed, [create_profile] hands that path to [open]: it answers
    200 and leaves an empty file there when the file system lets it be
    opened, and 500 without writing anything when not; [delete_profile]
    answers 200 for every name other than ["default"], and none of the
    three paths of the name exists afterwards. *)
Theorem C9_profile_names_unvalidated (p : Process) (gpg : GPG)
    (w0 w : World) (name : text) :
  let config := (AKConfig_init p gpg w0).1 in
  profile_path config name
  = (if startswith SLASH name then name ++ py ".profile"
     else profiles_dir config ++ SLASH :: name ++ py ".profile")
  ∧ (name ∉ list_profiles config w →
     if can_open config w (profile_path config name)
     then (create_profile config w (Some name)).1
          = {| status := 200; body := "Profile created successfully" |}
          ∧ files (create_profile config w (Some name)).2
              !! profile_path config name = Some []
     else create_profile config w (Some name)
          = ({| status := 500; body := "Failed to create profile" |}, w))
  ∧ (name ≠ py "default" →
     (delete_profile config w name).1
     = {| status := 200; body := "Profile deleted successfully" |}
     ∧ ∀ path, path ∈ artifacts config name →
               files (delete_profile config w name).2 !! path = None).
Proof.
  intros config. split_and!.
  - destruct (startswith SLASH name) eqn:Hn.
    + apply path_join_absolute. by rewrite startswith_suffixed.
    + rewrite profile_path_relative by done. unfold config.
      rewrite profiles_dir_prefix. by rewrite <-app_assoc.
  - intros Hnew. unfold create_profile.
    rewrite bool_decide_eq_false_2 by done.
    destruct (can_open config w (profile_path config name)) eqn:Hopen.
    + rewrite write_profile_empty by done. simpl.
      by rewrite lookup_insert_eq.
    + by rewrite write_profile_closed.
  - intros Hname. unfold delete_profile.
    rewrite bool_decide_eq_false_2 by done. split; [done|].
    simpl. rewrite !unlink_if_exists. simpl.
    destruct (name_list_path_differs config name) as [H1 H2].
    pose proof (keys_paths_differ config name) as H3.
    intros path. unfold artifacts. rewrite !elem_of_cons, elem_of_nil.
    intros [->|[->|[->|[]]]].
    + rewrite !lookup_delete_ne by done. apply lookup_delete_eq.
    + rewrite lookup_delete_ne by done. apply lookup_delete_eq.
    + apply lookup_delete_eq.
Qed.

Lemma C9_profile_names_witness :
  profile_path sample_config (py "../../x")
  = py "/home/u/.config/ak/profiles/../../x.profile"
  ∧ files (create_profile sample_config empty_world (Some (py "/tmp/x"))).2
      !! py "/tmp/x.profile" = Some []
  ∧ create_profile sample_config empty_world (Some (py "/nodir/x"))
    = ({| status := 500; body := "Failed to create profile" |}, empty_world)
  ∧ files (delete_profile sample_config
             (set_file (py "/tmp/x.profile") [] empty_world)
             (py "/tmp/x")).2 !! py "/tmp/x.profile" = None.
Proof.
  destruct (C9_profile_names_unvalidated sample_process sample_gpg
              empty_world empty_world (py "../../x")) as (H1 & _ & _).
  destruct (C9_profile_names_unvalidated sample_process sample_gpg
              empty_world empty_world (py "/tmp/x")) as (_ & H2 & _).
  destruct (C9_profile_names_unvalidated sample_process sample_gpg
              empty_world empty_world (py "/nodir/x")) as (_ & H3 & _).
  destruct (C9_profile_names_unvalidated sample_process sample_gpg
              empty_world (set_file (py "/tmp/x.profile") [] empty_world)
              (py "/tmp/x")) as (_ & _ & H4).
  fold sample_config in H1, H2, H3, H4. split_and!.
  - etrans; [exact H1|]. vm_compute. reflexivity.
  - assert (py "/tmp/x" ∉ list_profiles sample_config empty_world) as Hnew
      by (vm_compute; apply not_elem_of_nil).
    specialize (H2 Hnew).
    replace (can_open sample_config empty_world
               (profile_path sample_config (py "/tmp/x"))) with true in H2
      by (vm_compute; reflexivity).
    apply H2.
  - assert (py "/nodir/x" ∉ list_profiles sample_config empty_world) as Hnew
      by (vm_compute; apply not_elem_of_nil).
    specialize (H3 Hnew).
    replace (can_open sample_config empty_world
               (profile_path sample_config (py "/nodir/x"))) with false in H3
      by (vm_compute; reflexivity).
    exact H3.
  - apply H4; [discriminate|]. unfold artifacts. by left.
Defined.

(** C10: when several lines of the contents text carry the same key name,
    the mapping binds the key to the value of the last of them that
    decodes; earlier bindings are overwritten and a later line that fails
    to decode changes nothing. *)
Theorem C10_last_binding_wins :
  (∀ data key,
     decode_contents data !! key = last_binding key (contents_lines data))
  ∧ decode_contents (py "K=YQ==" ++ LF :: py "K=Yg==" ++ LF :: py "K=Y")
    = {[ py "K" := py "b" ]}.
Proof.
  split.
  - intros data key. unfold decode_contents.
    rewrite decode_fold_lookup, lookup_empty.
    by destruct (last_binding key (contents_lines data)).
  - vm_compute. reflexivity.
Qed.

(** * Further properties of the storage engine *)

(** ** Encodable text *)

Lemma utf8_encode_char_scalar c :
  is_Some (utf8_encode_char c) ↔ scalar c = true.
Proof.
  unfold utf8_encode_char, scalar, is_surrogate.
  nbool; simpl; split; try done; try (by intros [? [=]]); by eauto.
Qed.

Lemma encodable_Forall s :
  encodable s = true ↔ Forall (λ c, scalar c = true) s.
Proof.
  unfold encodable. rewrite bool_decide_eq_true.
  induction s as [|c s IH]; simpl.
  - split; [constructor|by eauto].
  - rewrite Forall_cons, <-IH, <-utf8_encode_char_scalar.
    destruct (utf8_encode_char c), (utf8_encode s); split;
      try (by intros [? [=]]); try (by intros [[? [=]] ?]);
      try (by intros [? [? [=]]]); eauto.
Qed.

Lemma encodable_app s r :
  encodable (s ++ r) = true ↔ encodable s = true ∧ encodable r = true.
Proof. rewrite !encodable_Forall. apply Forall_app. Qed.

Lemma encodable_range s :
  Forall (λ c, c < 128) s → encodable s = true.
Proof.
  intros H. apply encodable_Forall. eapply Forall_impl; [done|].
  intros c Hc. unfold scalar, is_surrogate. simpl in Hc. nbool; done.
Qed.

(** What the strict decoder returns can be encoded again. *)
Lemma utf8_decode_encodable bs s :
  utf8_decode bs = Some s → encodable s = true.
Proof.
  rewrite encodable_Forall.
  assert (∀ n bs s, (length bs ≤ n)%nat → utf8_decode bs = Some s →
            Forall (λ c, scalar c = true) s) as H; [|by eapply H].
  clear bs s. induction n as [|n IH]; intros bs s Hlen.
  { destruct bs; simpl in *; [|lia]. intros [= <-]. constructor. }
  destruct bs as [|b0 r0]; simpl; [intros [= <-]; constructor|].
  simpl in Hlen.
  assert (∀ (c : N) r, (length r ≤ n)%nat → scalar c = true →
            cons c <$> utf8_decode r = Some s →
            Forall (λ c, scalar c = true) s) as Hstep.
  { intros c r Hr Hc Hd. destruct (utf8_decode r) as [t|] eqn:Ht; [|done].
    injection Hd as <-. constructor; [done|]. by eapply IH. }
  destruct (N.ltb_spec b0 0x80).
  { apply Hstep; [lia|]. unfold scalar, is_surrogate. nbool; done. }
  destruct (N.ltb_spec b0 0xC2); [done|].
  destruct (N.ltb_spec b0 0xE0).
  { destruct r0 as [|b1 r1]; [done|]. unfold is_cont.
    destruct (N.leb_spec 0x80 b1); [|done].
    destruct (N.leb_spec b1 0xBF); [|done]. simpl.
    apply Hstep; [simpl in Hlen; lia|].
    unfold scalar, is_surrogate. nbool; done. }
  destruct (N.ltb_spec b0 0xF0).
  { destruct r0 as [|b1 [|b2 r2]]; try done. simpl in Hlen.
    destruct (is_cont b1 && is_cont b2 && _ && _) eqn:Hc; [|done].
    apply Hstep; [lia|].
    rewrite !andb_true_iff in Hc. destruct Hc as [[[Hb1 Hb2] _] Hs].
    unfold is_cont in Hb1, Hb2. rewrite andb_true_iff in Hb1, Hb2.
    destruct Hb1 as [_ Hb1%N.leb_le], Hb2 as [_ Hb2%N.leb_le].
    unfold scalar. rewrite Hs, andb_true_r. apply N.ltb_lt. lia. }
  destruct (N.ltb_spec b0 0xF5); [|done].
  destruct r0 as [|b1 [|b2 [|b3 r3]]]; try done. simpl in Hlen.
  destruct (is_cont b1 && is_cont b2 && is_cont b3 && _ && _) eqn:Hc;
    [|done].
  apply Hstep; [lia|].
  rewrite !andb_true_iff in Hc. destruct Hc as [[_ Hlo] Hhi].
  unfold scalar, is_surrogate. rewrite Hhi. simpl.
  apply N.leb_le in Hlo. nbool; done.
Qed.

(** ** What the parser returns *)

Lemma split_elem_of sep s part c : part ∈ split sep s → c ∈ part → c ∈ s.
Proof.
  revert part. induction s as [|x s IH]; simpl; intros part.
  - rewrite list_elem_of_singleton. by intros ->.
  - destruct (N.eqb_spec x sep) as [->|Hne].
    + rewrite elem_of_cons. intros [->|Hp] Hc; [by apply elem_of_nil in Hc|].
      right. by eapply IH.
    + destruct (split sep s) as [|w ws] eqn:Hs.
      * rewrite list_elem_of_singleton. intros -> Hc.
        apply list_elem_of_singleton in Hc as ->. by left.
      * rewrite elem_of_cons. intros [->|Hp] Hc.
        -- apply elem_of_cons in Hc as [->|Hc]; [by left|].
           right. apply (IH w); [by left|done].
        -- right. apply (IH part); [by right|done].
Qed.

(** A property of every binding of a line of the text holds of the whole
    mapping. *)
Lemma decode_contents_Forall (P : text → text → Prop) data :
  (∀ line key value,
     line ∈ contents_lines data → decode_line line = Some (key, value) →
     P key value) →
  map_Forall P (decode_contents data).
Proof.
  unfold decode_contents. generalize (contents_lines data). intros lines HP.
  assert (map_Forall P (∅ : gmap text text)) as Hm by apply map_Forall_empty.
  revert Hm. generalize (∅ : gmap text text).
  induction lines as [|line lines IH]; intros m Hm; [done|].
  simpl. apply IH.
  - intros l k v Hl. apply HP. by right.
  - destruct (decode_line line) as [[k v]|] eqn:Hd; [|done].
    apply map_Forall_insert_2; [|done]. eapply HP; [by left|done].
Qed.

Lemma decode_line_encodable line key value :
  decode_line line = Some (key, value) → encodable value = true.
Proof.
  unfold decode_line.
  destruct (bool_decide (strip line = []) || startswith HASH (strip line));
    [done|].
  destruct (split_first EQUALS (strip line)) as [[k e]|]; [|done].
  destruct (b64decode e) as [bs|]; [|done]. simpl.
  destruct (utf8_decode bs) as [v|] eqn:Hv; [|done].
  intros [= _ <-]. by eapply utf8_decode_encodable.
Qed.

(** The characters of a key come from the line it was read from. *)
Lemma decode_line_key_chars line key value c :
  decode_line line = Some (key, value) → c ∈ key → c ∈ line.
Proof.
  unfold decode_line.
  destruct (bool_decide (strip line = []) || startswith HASH (strip line));
    [done|].
  destruct (split_first EQUALS (strip line)) as [[k e]|] eqn:Hs; [|done].
  destruct (b64decode e ≫= utf8_decode); [|done].
  intros [= <- _] Hc. apply split_first_Some in Hs as [Hs _].
  apply strip_elem_of. rewrite Hs. apply elem_of_app. by left.
Qed.

Lemma decode_contents_keys_values data :
  map_Forall (λ key value,
                plain_key key = true ∧ encodable value = true
                ∧ ∀ c, c ∈ key → c ∈ data)
    (decode_contents data).
Proof.
  apply decode_contents_Forall. intros line key value Hline Hd.
  split_and!.
  - eapply decode_line_plain; [|done].
    pose proof (split_parts_without LF (strip data)) as H.
    rewrite Forall_forall in H. by apply H.
  - by eapply decode_line_encodable.
  - intros c Hc. apply strip_elem_of.
    eapply split_elem_of; [exact Hline|].
    by eapply decode_line_key_chars.
Qed.

Lemma load_profile_keys_well_formed gpg config w name :
  map_Forall (λ key value, plain_key key = true ∧ encodable value = true)
    (load_profile_keys gpg config w name).1.
Proof.
  rewrite load_profile_keys_resolution.
  eapply map_Forall_impl; [apply decode_contents_keys_values|].
  by intros key value (? & ? & _).
Qed.

(** ** What the encoder accepts *)

Lemma encode_contents_Some (keys : gmap text text) :
  map_Forall (λ _ value, encodable value = true) keys →
  is_Some (encode_contents keys).
Proof.
  intros Hkeys. unfold encode_contents.
  assert (is_Some (mapM encode_line (sorted_items keys))) as [lines ->].
  { apply mapM_is_Some, Forall_forall. intros [k v] Hin.
    unfold sorted_items in Hin. rewrite merge_sort_Permutation in Hin.
    apply elem_of_map_to_list in Hin. apply Hkeys in Hin.
    unfold encode_line, compose. simpl.
    apply bool_decide_eq_true in Hin as [bs ->]. by eexists. }
  destruct lines; by eexists.
Qed.

Lemma encode_contents_None (keys : gmap text text) key value :
  keys !! key = Some value → encodable value = false →
  encode_contents keys = None.
Proof.
  intros Hk Hv. unfold encode_contents.
  destruct (mapM encode_line (sorted_items keys)) as [lines|] eqn:Hl; [|done].
  assert (is_Some (mapM encode_line (sorted_items keys))) as Hs by eauto.
  apply mapM_is_Some in Hs. rewrite Forall_forall in Hs.
  destruct (Hs (key, value)) as [l Hline].
  { unfold sorted_items. rewrite merge_sort_Permutation.
    by apply elem_of_map_to_list. }
  unfold encode_line in Hline. simpl in Hline.
  unfold encodable in Hv. apply bool_decide_eq_false in Hv.
  destruct (utf8_encode value); [|done]. destruct Hv. by eexists.
Qed.

Lemma join_elem_of sep parts c :
  c ∈ join sep parts → c = sep ∨ ∃ part, part ∈ parts ∧ c ∈ part.
Proof.
  induction parts as [|p ps IH]; [by intros ?%elem_of_nil|].
  destruct ps as [|q ps].
  - simpl. intros Hc. right. exists p. split; [by left|done].
  - change (join sep (p :: q :: ps)) with (p ++ sep :: join sep (q :: ps)).
    rewrite elem_of_app, elem_of_cons. intros [Hc|[->|Hc]].
    + right. exists p. split; [by left|done].
    + by left.
    + destruct (IH Hc) as [->|(part & Hp & Hcp)]; [by left|].
      right. exists part. split; [by right|done].
Qed.

(** The characters of an encoded text: line feeds, ["="], base64
    characters and the characters of the keys. *)
Lemma encode_contents_chars (keys : gmap text text) data c :
  encode_contents keys = Some data → c ∈ data →
  43 ≤ c ≤ 122 ∨ c = LF ∨ ∃ key, is_Some (keys !! key) ∧ c ∈ key.
Proof.
  unfold encode_contents.
  destruct (mapM encode_line (sorted_items keys)) as [lines|] eqn:Hl; [|done].
  apply mapM_Some in Hl.
  assert (∀ line, line ∈ lines → c ∈ line →
            43 ≤ c ≤ 122 ∨ ∃ key, is_Some (keys !! key) ∧ c ∈ key) as Hline.
  { intros line Hin Hc.
    apply list_elem_of_lookup in Hin as [i Hi].
    destruct (Forall2_lookup_r _ _ _ _ _ Hl Hi) as ([k v] & Hkv & Henc).
    unfold encode_line in Henc. simpl in Henc.
    destruct (utf8_encode v) as [bs|] eqn:Hbs; [|done].
    injection Henc as <-.
    apply elem_of_app in Hc as [Hc|Hc].
    - right. exists k. split; [|done]. exists v.
      apply elem_of_map_to_list.
      rewrite <-(merge_sort_Permutation item_le (map_to_list keys)).
      by eapply list_elem_of_lookup_2.
    - left. apply elem_of_cons in Hc as [->|Hc]; [unfold EQUALS; lia|].
      pose proof (b64encode_range bs (utf8_encode_bytes _ _ Hbs)) as Hr.
      rewrite Forall_forall in Hr. by apply Hr. }
  destruct (decide (lines = [])) as [->|Hne];
    [intros [= <-] ?%elem_of_nil; done|].
  replace (match lines with
           | [] => Some []
           | _ :: _ => Some (join LF lines ++ [LF])
           end) with (Some (join LF lines ++ [LF])) by (by destruct lines).
  intros [= <-]. rewrite elem_of_app, list_elem_of_singleton.
  intros [Hc| ->]; [|by right; left].
  apply join_elem_of in Hc as [->|(part & Hp & Hc)]; [by right; left|].
  destruct (Hline part Hp Hc); [by left|by right; right].
Qed.

Lemma encode_contents_nonempty (keys : gmap text text) data :
  encode_contents keys = Some data → keys ≠ ∅ → data ≠ [].
Proof.
  unfold encode_contents.
  destruct (mapM encode_line (sorted_items keys)) as [lines|] eqn:Hl; [|done].
  apply mapM_Some in Hl. intros Hd Hne.
  destruct lines as [|l ls].
  - apply Forall2_nil_inv_r in Hl. destruct Hne. unfold sorted_items in Hl.
    apply map_to_list_empty_iff, Permutation_nil_r.
    by rewrite <-(merge_sort_Permutation item_le (map_to_list keys)), Hl.
  - injection Hd as <-. intros H. by apply app_eq_nil in H as [_ ?].
Qed.

(** The encoded text of storable bindings survives a text-mode file. *)
Lemma encode_contents_storable (keys : gmap text text) data :
  map_Forall storable keys → encode_contents keys = Some data →
  encodable data = true ∧ universal_newlines data = data.
Proof.
  intros Hkeys Hdata. split.
  - apply encodable_Forall, Forall_forall. intros c Hc.
    destruct (encode_contents_chars keys data c Hdata Hc)
      as [Hr|[->|(key & [v Hk] & Hck)]].
    + unfold scalar, is_surrogate. nbool; done.
    + done.
    + apply Hkeys in Hk as (_ & _ & He & _).
      rewrite encodable_Forall, Forall_forall in He. by apply He.
  - apply universal_newlines_id. intros Hc.
    destruct (encode_contents_chars keys data CR Hdata Hc)
      as [Hr|[?|(key & [v Hk] & Hck)]].
    + unfold CR in Hr. lia.
    + done.
    + by apply Hkeys in Hk as (_ & ? & _).
Qed.

(** ** Without [gpg] *)

Section PlainMode.

Context (gpg : GPG) (config : AKConfig).
Hypothesis Hplain : plain_mode config = true.

Lemma decrypt_gpg_data_plain w path :
  decrypt_gpg_data gpg config w path = (None, w).
Proof. unfold decrypt_gpg_data. unfold plain_mode in Hplain. by rewrite Hplain. Qed.

Lemma encrypt_gpg_data_plain w data path :
  encrypt_gpg_data gpg config w data path = (false, w).
Proof. unfold encrypt_gpg_data. unfold plain_mode in Hplain. by rewrite Hplain. Qed.

(** What is loaded is what the plain contents file decodes to. *)
Lemma load_profile_keys_plain w name :
  load_profile_keys gpg config w name
  = (decode_contents
       (default [] (read_text w (profile_keys_plain_path config name))), w).
Proof.
  pose proof (load_profile_keys_resolution gpg config w name) as Hr.
  simpl in Hr. rewrite decrypt_gpg_data_plain in Hr. simpl in Hr.
  assert ((load_profile_keys gpg config w name).2 = w) as Hw.
  { unfold load_profile_keys. rewrite decrypt_gpg_data_plain.
    by case_ifs. }
  destruct (load_profile_keys gpg config w name) as [keys w'].
  simpl in *. subst w'. f_equal. rewrite Hr.
  by destruct (exists_ w (profile_keys_path config name)).
Qed.

Lemma save_profile_keys_plain w name keys :
  save_profile_keys gpg config w name keys
  = match encode_contents keys with
    | None => (false, w)
    | Some data =>
        if negb (can_open config w (profile_keys_plain_path config name))
        then (false, w)
        else if encodable data
        then (true, set_file (profile_keys_plain_path config name) data w)
        else (false, set_file (profile_keys_plain_path config name) [] w)
    end.
Proof.
  unfold save_profile_keys. destruct (encode_contents keys); [|done].
  by rewrite encrypt_gpg_data_plain.
Qed.

Lemma save_profile_keys_plain_storable w name keys :
  can_open config w (profile_keys_plain_path config name) = true →
  map_Forall storable keys →
  ∃ data, encode_contents keys = Some data
          ∧ universal_newlines data = data
          ∧ save_profile_keys gpg config w name keys
            = (true, set_file (profile_keys_plain_path config name) data w).
Proof.
  intros Hopen Hkeys.
  destruct (encode_contents_Some keys) as [data Hdata].
  { eapply map_Forall_impl; [exact Hkeys|]. by intros ?? (_&_&_&?). }
  destruct (encode_contents_storable keys data Hkeys Hdata) as [He Hu].
  exists data. split_and!; try done.
  by rewrite save_profile_keys_plain, Hdata, Hopen, He.
Qed.

Lemma load_after_plain_write w name keys data :
  map_Forall (λ key _, plain_key key = true) keys →
  encode_contents keys = Some data → universal_newlines data = data →
  (load_profile_keys gpg config
     (set_file (profile_keys_plain_path config name) data w) name).1 = keys.
Proof.
  intros Hkeys Hdata Hu. rewrite load_profile_keys_plain. simpl.
  unfold read_text. simpl. rewrite lookup_insert_eq. simpl. rewrite Hu.
  by apply decode_encode_contents.
Qed.

Lemma step_calls_plain w o : calls (step gpg config w o) = calls w.
Proof.
  assert (∀ w name keys, calls (write_profile config w name keys).2 = calls w)
    as Hwrite.
  { intros. unfold write_profile. destruct (can_open _ _ _); [|done].
    by destruct (write_lines _ _). }
  assert (∀ w name keys,
            calls (save_profile_keys gpg config w name keys).2 = calls w)
    as Hsave.
  { intros. rewrite save_profile_keys_plain.
    destruct (encode_contents _); [|done].
    destruct (can_open _ _ _); [|done]. by destruct (encodable _). }
  destruct o; simpl; try done.
  - by rewrite load_profile_keys_plain.
  - unfold add_profile_key.
    destruct (req_name data) as [key_name|]; [|done].
    destruct (req_value data) as [key_value|]; [|done].
    rewrite load_profile_keys_plain.
    pose proof (Hsave w profile
                  (<[key_name:=key_value]>
                     (decode_contents
                        (default []
                           (read_text w
                              (profile_keys_plain_path config profile))))))
      as Hsv.
    destruct (save_profile_keys _ _ _ _ _) as [saved w2]. simpl in Hsv.
    destruct saved; [|done]. simpl. case_bool_decide; [done|].
    by rewrite Hwrite.
  - unfold update_profile_key.
    destruct (req_value data) as [key_value|]; [|done].
    rewrite load_profile_keys_plain.
    pose proof (Hsave w profile
                  (<[key:=key_value]>
                     (decode_contents
                        (default []
                           (read_text w
                              (profile_keys_plain_path config profile))))))
      as Hsv.
    destruct (save_profile_keys _ _ _ _ _) as [saved w2]. simpl in Hsv.
    by destruct saved.
  - unfold delete_profile_key. rewrite load_profile_keys_plain.
    case_bool_decide; [|done].
    pose proof (Hsave w profile
                  (delete key
                     (decode_contents
                        (default []
                           (read_text w
                              (profile_keys_plain_path config profile))))))
      as Hsv.
    destruct (save_profile_keys _ _ _ _ _) as [saved w2]. simpl in Hsv.
    destruct saved; [|done]. simpl. case_bool_decide; [|done].
    by rewrite Hwrite.
  - unfold create_profile. destruct data as [name|]; [|done].
    case_bool_decide; [done|].
    pose proof (Hwrite w name []) as Hsv.
    destruct (write_profile _ _ _ _) as [written w1]. simpl in Hsv.
    by destruct written.
  - unfold delete_profile. case_bool_decide; [done|]. simpl.
    by rewrite !unlink_if_exists.
  - unfold ensure_default_profile. case_bool_decide; [done|].
    by rewrite Hwrite.
Qed.

Lemma run_calls_plain w ops : calls (run gpg config w ops) = calls w.
Proof.
  revert w. induction ops as [|o ops IH]; intros w; [done|].
  simpl. fold (run gpg config (step gpg config w o) ops).
  by rewrite IH, step_calls_plain.
Qed.

End PlainMode.

(** ** With [gpg] *)

Lemma encode_contents_encodable (keys : gmap text text) data :
  map_Forall (λ key _, encodable key = true) keys →
  encode_contents keys = Some data → encodable data = true.
Proof.
  intros Hkeys Hdata. apply encodable_Forall, Forall_forall. intros c Hc.
  destruct (encode_contents_chars keys data c Hdata Hc)
    as [Hr|[->|(key & [v Hk] & Hck)]].
  - unfold scalar, is_surrogate. nbool; done.
  - done.
  - apply Hkeys in Hk. rewrite encodable_Forall, Forall_forall in Hk.
    by apply Hk.
Qed.

Section Encrypted.

Context (gpg : GPG) (config : AKConfig).
Hypothesis Hmode : plain_mode config = false.
Hypothesis Hpass : encodable (preset_passphrase config) = true.

Lemma decrypt_gpg_data_run w path :
  (NUL ∉ path) →
  decrypt_gpg_data gpg config w path
  = (universal_newlines
       <$> (files w !! path ≫= gpg_decrypt gpg (preset_passphrase config)),
     log (GpgDecrypt path) w).
Proof.
  intros Hnul. unfold decrypt_gpg_data. unfold plain_mode in Hmode.
  by rewrite Hmode, Hpass, bool_decide_eq_false_2.
Qed.

Lemma encrypt_gpg_data_run w data path cipher :
  encodable data = true → (NUL ∉ path) → can_open config w path = true →
  gpg_symmetric gpg (preset_passphrase config) data = Some cipher →
  encrypt_gpg_data gpg config w data path
  = (true, set_file path cipher (log (GpgSymmetric path) w)).
Proof.
  intros Hdata Hnul Hopen Hc. unfold encrypt_gpg_data.
  unfold plain_mode in Hmode.
  by rewrite Hmode, Hdata, Hpass, bool_decide_eq_false_2, Hc, Hopen.
Qed.

Lemma save_then_load_encrypted (w : World) (name : text)
    (keys : gmap text text) (data cipher : text) :
  (NUL ∉ profile_keys_path config name) →
  can_open config w (profile_keys_path config name) = true →
  keys ≠ ∅ →
  map_Forall (λ key value, storable key value) keys →
  encode_contents keys = Some data →
  gpg_symmetric gpg (preset_passphrase config) data = Some cipher →
  gpg_decrypt gpg (preset_passphrase config) cipher = Some data →
  save_profile_keys gpg config w name keys
  = (true, set_file (profile_keys_path config name) cipher
             (log (GpgSymmetric (profile_keys_path config name)) w))
  ∧ (load_profile_keys gpg config
       (save_profile_keys gpg config w name keys).2 name).1 = keys.
Proof.
  intros Hnul Hopen Hne Hkeys Hdata Hsym Hdec.
  destruct (encode_contents_storable keys data Hkeys Hdata) as [Henc Hu].
  assert (save_profile_keys gpg config w name keys
          = (true, set_file (profile_keys_path config name) cipher
                     (log (GpgSymmetric (profile_keys_path config name)) w)))
    as Hsave.
  { unfold save_profile_keys. rewrite Hdata.
    by rewrite (encrypt_gpg_data_run w data _ cipher). }
  split; [done|]. rewrite Hsave. cbn [snd].
  set (w1 := set_file _ _ _).
  assert (files w1 !! profile_keys_path config name = Some cipher) as Hfile.
  { unfold w1. simpl. by rewrite lookup_insert_eq. }
  assert (decrypt_gpg_data gpg config w1 (profile_keys_path config name)
          = (Some data, log (GpgDecrypt (profile_keys_path config name)) w1))
    as Hrun.
  { rewrite decrypt_gpg_data_run, Hfile by done. cbn [mbind option_bind].
    rewrite Hdec. cbn [fmap option_fmap option_map]. by rewrite Hu. }
  pose proof (encode_contents_nonempty keys data Hdata Hne) as Hd.
  destruct data as [|c d]; [done|].
  erewrite load_profile_keys_decrypted; [|..|exact Hrun].
  - simpl. apply decode_encode_contents; [|done].
    eapply map_Forall_impl; [exact Hkeys|]. by intros ?? [? _].
  - unfold exists_. rewrite Hfile. by apply bool_decide_eq_true_2.
Qed.

End Encrypted.

(** ** The files an operation leaves alone *)

Section Frame.

Context (gpg : GPG) (config : AKConfig).













Lemma read_profile_frame w1 w2 name :
  files w1 !! profile_path config name = files w2 !! profile_path config name →
  read_profile config w1 name = read_profile config w2 name.
Proof. intros H. unfold read_profile, read_text. by rewrite H. Qed.

End Frame.

(** ** Lines read from a name list *)

Lemma universal_newlines_chars_aux (n : nat) (s : text) :
  (length s ≤ n)%nat →
  (CR ∉ universal_newlines s)
  ∧ ∀ c, c ∈ universal_newlines s → c = LF ∨ c ∈ s.
Proof.
  revert s. induction n as [|n IH]; intros s Hn.
  { destruct s; [|simpl in Hn; lia]. split; [apply not_elem_of_nil|].
    by intros c ?%elem_of_nil. }
  destruct s as [|c s]; [split; [apply not_elem_of_nil|by intros c ?%elem_of_nil]|].
  simpl in Hn. cbn [universal_newlines].
  destruct (N.eqb_spec c CR) as [->|Hc].
  - destruct s as [|c2 s2].
    + split.
      * intros H%list_elem_of_singleton. discriminate.
      * intros c H%list_elem_of_singleton. by left.
    + assert (CR ≠ LF) as Hne by discriminate.
      destruct (N.eqb_spec c2 LF) as [->|Hc2].
      * destruct (IH s2) as [H1 H2]; [simpl in Hn; lia|]. split.
        -- rewrite not_elem_of_cons. by split.
        -- intros c [->|H]%elem_of_cons; [by left|].
           destruct (H2 c H) as [?|?]; [by left|]. right. by do 2 right.
      * destruct (IH (c2 :: s2)) as [H1 H2]; [simpl in *; lia|]. split.
        -- rewrite not_elem_of_cons. by split.
        -- intros c [->|H]%elem_of_cons; [by left|].
           destruct (H2 c H) as [?|?]; [by left|]. right. by right.
  - destruct (IH s) as [H1 H2]; [lia|]. split.
    + rewrite not_elem_of_cons. by split.
    + intros x [->|H]%elem_of_cons; [right; by left|].
      destruct (H2 x H) as [?|?]; [by left|]. right. by right.
Qed.

(** Text read from a file holds no carriage return. *)
Lemma universal_newlines_no_cr s : CR ∉ universal_newlines s.
Proof. by apply (universal_newlines_chars_aux (length s)). Qed.

Lemma universal_newlines_chars s c :
  c ∈ universal_newlines s → c = LF ∨ c ∈ s.
Proof. by apply (universal_newlines_chars_aux (length s)). Qed.

Lemma universal_newlines_encodable s :
  encodable s = true → encodable (universal_newlines s) = true.
Proof.
  rewrite !encodable_Forall, !Forall_forall. intros Hs c Hc.
  destruct (universal_newlines_chars s c Hc) as [->|?]; [done|by apply Hs].
Qed.

(** A line of [readlines] is a text without line feed, followed by a line
    feed unless it is the last one. *)
Lemma readlines_lines s line :
  line ∈ readlines s →
  ∃ body, (LF ∉ body) ∧ (line = body ++ [LF] ∨ line = body)
          ∧ ∀ c, c ∈ body → c ∈ s.
Proof.
  revert line. induction s as [|c s IH]; intros line; simpl.
  { by intros ?%elem_of_nil. }
  destruct (N.eqb_spec c LF) as [->|Hc].
  - intros [->|Hl]%elem_of_cons.
    + exists []. split_and!; [apply not_elem_of_nil|by left|].
      by intros c ?%elem_of_nil.
    + destruct (IH line Hl) as (b & ? & ? & Hb). exists b.
      split_and!; [done..|]. intros c Hc. right. by apply Hb.
  - destruct (readlines s) as [|l ls].
    + intros ->%list_elem_of_singleton. exists [c].
      split_and!; [|by right|].
      * intros ?%list_elem_of_singleton. done.
      * intros x ->%list_elem_of_singleton. by left.
    + intros [->|Hl]%elem_of_cons.
      * destruct (IH l) as (b & Hb & Hl & Hs); [by left|].
        exists (c :: b). split_and!.
        -- rewrite not_elem_of_cons. by split.
        -- destruct Hl as [->| ->]; [by left|by right].
        -- intros x [->|Hx]%elem_of_cons; [by left|]. right. by apply Hs.
      * destruct (IH line) as (b & ? & ? & Hb); [by right|]. exists b.
        split_and!; [done..|]. intros x Hx. right. by apply Hb.
Qed.

Lemma lstrip_snoc_space s c :
  isspace c = true →
  lstrip (s ++ [c])
  = match lstrip s with [] => [] | _ => lstrip s ++ [c] end.
Proof.
  intros Hc. induction s as [|x s IH]; simpl; [by rewrite Hc|].
  by destruct (isspace x).
Qed.

Lemma rstrip_snoc_space s c : isspace c = true → rstrip (s ++ [c]) = rstrip s.
Proof.
  intros Hc. unfold rstrip. rewrite rev_app_distr. simpl. by rewrite Hc.
Qed.

Lemma strip_snoc_space s c : isspace c = true → strip (s ++ [c]) = strip s.
Proof.
  intros Hc. unfold strip. rewrite lstrip_snoc_space by done.
  destruct (lstrip s) as [|x t] eqn:Hs; [done|].
  by rewrite rstrip_snoc_space.
Qed.

Lemma strip_ends s : strip s = [] ∨ ends_clean (strip s) = true.
Proof.
  unfold strip, rstrip, ends_clean. rewrite rev_involutive.
  destruct (lstrip_starts (rev (lstrip s))) as [H|H]; [|by right].
  left. by rewrite H.
Qed.

Lemma strip_idemp s : strip (strip s) = strip s.
Proof.
  destruct (strip_starts s) as [H|Hs]; [by rewrite H|].
  destruct (strip_ends s) as [H|He]; [by rewrite H|].
  by apply strip_clean.
Qed.

(** The names read from a name list: not empty, without surrounding white
    space, line feed or carriage return, and made of characters of the
    file. *)
Lemma read_profile_names config w name key :
  key ∈ read_profile config w name →
  key ≠ [] ∧ strip key = key ∧ (LF ∉ key) ∧ (CR ∉ key)
  ∧ ∃ content, files w !! profile_path config name = Some content
               ∧ ∀ c, c ∈ key → c ∈ content.
Proof.
  unfold read_profile, read_text.
  destruct (files w !! profile_path config name) as [content|]; simpl;
    [|by intros ?%elem_of_nil].
  intros [Hne (line & -> & Hline)%list_elem_of_fmap]%list_elem_of_filter.
  destruct (readlines_lines _ _ Hline) as (b & Hb & Hl & Hchars).
  assert (strip line = strip b) as Hstrip.
  { destruct Hl as [->| ->]; [|done]. by apply strip_snoc_space. }
  rewrite Hstrip in *.
  assert (∀ c, c ∈ strip b → c ∈ universal_newlines content) as Hin.
  { intros c Hc. by apply Hchars, strip_elem_of. }
  split_and!.
  - done.
  - apply strip_idemp.
  - intros H. by apply strip_elem_of in H.
  - intros H. by apply Hin, universal_newlines_no_cr in H.
  - exists content. split; [done|]. intros c Hc.
    destruct (universal_newlines_chars content c (Hin c Hc)) as [->|?];
      [|done].
    by apply strip_elem_of in Hc.
Qed.

Lemma read_profile_file_exists config w name key :
  key ∈ read_profile config w name →
  is_Some (files w !! profile_path config name).
Proof.
  intros (_ & _ & _ & _ & content & Hc & _)%read_profile_names. by eexists.
Qed.

Lemma artifacts_elems config name :
  profile_path config name ∈ artifacts config name
  ∧ profile_keys_path config name ∈ artifacts config name
  ∧ profile_keys_plain_path config name ∈ artifacts config name.
Proof. unfold artifacts. rewrite !elem_of_cons. split_and!; auto. Qed.

Lemma read_profile_listable config w name :
  (∀ content, files w !! profile_path config name = Some content →
              encodable content = true) →
  Forall (λ key, listable key = true) (read_profile config w name).
Proof.
  intros Hfile. apply Forall_forall. intros key Hkey.
  apply read_profile_names in Hkey
    as (Hne & Hs & Hlf & Hcr & content & Hc & Hin).
  apply listable_spec. split_and!; try done.
  apply encodable_Forall, Forall_forall. intros c Hk.
  specialize (Hfile content Hc).
  rewrite encodable_Forall, Forall_forall in Hfile. by apply Hfile, Hin.
Qed.

(** ** The key operations without [gpg] *)

Lemma elem_of_list_remove_1 (x k : text) l : k ∈ list_remove x l → k ∈ l.
Proof.
  induction l as [|y l IH]; simpl; [done|].
  case_bool_decide; [by right|].
  intros [->|?]%elem_of_cons; [by left|]. right. by apply IH.
Qed.

Lemma elem_of_list_remove_ne (x k : text) l :
  k ≠ x → k ∈ list_remove x l ↔ k ∈ l.
Proof.
  intros Hne. split; [apply elem_of_list_remove_1|].
  induction l as [|y l IH]; simpl; [done|].
  case_bool_decide as Hy.
  - intros [->|?]%elem_of_cons; [by subst|done].
  - intros [->|?]%elem_of_cons; [by left|]. right. by apply IH.
Qed.

Lemma list_remove_NoDup (x : text) l : NoDup l → x ∉ list_remove x l.
Proof.
  induction 1 as [|y l Hy _ IH]; simpl; [apply not_elem_of_nil|].
  case_bool_decide as Hx; [by subst|].
  rewrite not_elem_of_cons. by split.
Qed.

Lemma text_file_spec w path :
  text_file w path = true
  ↔ ∀ content, files w !! path = Some content → encodable content = true.
Proof.
  unfold text_file. destruct (files w !! path) as [content|].
  - split; [by intros ? ? [= <-]|]. intros H. by apply H.
  - by split.
Qed.

Section PlainOps.

Context (gpg : GPG) (config : AKConfig).
Hypothesis Hplain : plain_mode config = true.

Lemma load_profile_keys_storable w name :
  text_file w (profile_keys_plain_path config name) = true →
  map_Forall (λ key value, storable key value)
    (load_profile_keys gpg config w name).1.
Proof.
  intros Hfile. rewrite text_file_spec in Hfile. rewrite load_profile_keys_plain by done. simpl.
  eapply map_Forall_impl; [apply decode_contents_keys_values|].
  intros key value (Hk & Hv & Hchars). unfold storable, read_text in *.
  destruct (files w !! profile_keys_plain_path config name) as [content|]
    eqn:Hc; simpl in Hchars.
  - split_and!; try done.
    + intros H. by apply Hchars, universal_newlines_no_cr in H.
    + apply encodable_Forall, Forall_forall. intros c Hin.
      pose proof (universal_newlines_encodable content (Hfile content eq_refl))
        as He.
      rewrite encodable_Forall, Forall_forall in He. by apply He, Hchars.
  - destruct key as [|c key].
    + split_and!; [done|apply not_elem_of_nil|done..].
    + exfalso. eapply elem_of_nil, (Hchars c). by left.
Qed.

(** Saving a changed copy of what was loaded. *)
(** A key can only be loaded from a contents file that exists. *)
Lemma loaded_key_file_exists w name key :
  is_Some ((load_profile_keys gpg config w name).1 !! key) →
  is_Some (files w !! profile_keys_plain_path config name).
Proof.
  rewrite load_profile_keys_plain by done. simpl. unfold read_text.
  destruct (files w !! profile_keys_plain_path config name); [by eexists|].
  simpl. rewrite decode_contents_nil, lookup_empty. by intros [? ?].
Qed.

Lemma load_change_save (w : World) (name : text)
    (f : gmap text text → gmap text text) :
  can_open config w (profile_keys_plain_path config name) = true →
  text_file w (profile_keys_plain_path config name) = true →
  (∀ keys : gmap text text,
     map_Forall (λ key value, storable key value) keys →
     map_Forall (λ key value, storable key value) (f keys)) →
  ∃ data,
    save_profile_keys gpg config (load_profile_keys gpg config w name).2 name
      (f (load_profile_keys gpg config w name).1)
    = (true, set_file (profile_keys_plain_path config name) data w)
    ∧ ∀ w', files w' !! profile_keys_plain_path config name = Some data →
            (load_profile_keys gpg config w' name).1
            = f (load_profile_keys gpg config w name).1.
Proof.
  intros Hopen Hfile Hf.
  pose proof (Hf _ (load_profile_keys_storable w name Hfile)) as Hkeys.
  assert (can_open config (load_profile_keys gpg config w name).2
            (profile_keys_plain_path config name) = true) as Hopen'.
  { by rewrite load_profile_keys_plain. }
  destruct (save_profile_keys_plain_storable gpg config Hplain
              (load_profile_keys gpg config w name).2 name _ Hopen' Hkeys)
    as (data & Hdata & Hu & Hsave).
  exists data. split.
  - rewrite Hsave. by rewrite load_profile_keys_plain.
  - intros w' Hw'. rewrite (load_profile_keys_plain gpg config Hplain w').
    simpl. unfold read_text. rewrite Hw'. simpl. rewrite Hu.
    apply decode_encode_contents; [|done].
    eapply map_Forall_impl; [exact Hkeys|]. by intros ?? [? _].
Qed.

End PlainOps.

(** ** Creating and deleting profiles *)

Section Profiles.

Context (gpg : GPG) (config : AKConfig).







End Profiles.

(** ** The read-only endpoints *)

Section ReadOnly.

Context (gpg : GPG) (config : AKConfig).

Lemma get_profiles_loop_spec names w profile_data :
  (get_profiles_loop gpg config w names profile_data).1
  = profile_data
    ++ ((λ name,
           {| info_name := name;
              info_keyCount := size (load_profile_keys gpg config w name).1;
              info_isDefault := bool_decide (name = py "default") |})
        <$> names)
  ∧ files (get_profiles_loop gpg config w names profile_data).2 = files w.
Proof.
  revert w profile_data.
  induction names as [|name names IH]; intros w profile_data; simpl.
  { by rewrite app_nil_r. }
  pose proof (load_profile_keys_files gpg config w name) as Hf.
  destruct (load_profile_keys gpg config w name) as [keys w1]. simpl in Hf.
  destruct (IH w1 (profile_data
                   ++ [{| info_name := name; info_keyCount := size keys;
                          info_isDefault :=
                            bool_decide (name = py "default") |}]))
    as [H1 H2].
  rewrite H1, H2, <-app_assoc. split; [|done]. simpl. do 2 f_equal.
  apply list_fmap_ext. intros _ q _. f_equal.
  f_equal. by apply load_profile_keys_ext.
Qed.


End ReadOnly.

(** ** Service detection *)

Lemma has_prefix_nil s : has_prefix [] s = true.
Proof. done. Qed.

Lemma has_prefix_cons_nil c p : has_prefix (c :: p) [] = false.
Proof. done. Qed.

Lemma has_prefix_cons c p x s :
  has_prefix (c :: p) (x :: s) = (c =? x) && has_prefix p s.
Proof.
  unfold has_prefix. simpl. destruct (c =? x); [done|].
  apply bool_decide_eq_false_2. by intros [? ?].
Qed.

Lemma matchhere_dot_star s : matchhere [DOT; STAR] s = true.
Proof. by destruct s. Qed.

Lemma matchhere_single c q re2 s :
  (q =? STAR) = false →
  matchhere (c :: q :: re2) s
  = match s with
    | x :: s' => re_char c x && matchhere (q :: re2) s'
    | [] => false
    end.
Proof. intros Hq. destruct s; simpl; by rewrite Hq. Qed.

(** A literal text followed by [".*"] matches the texts that begin with
    it. *)
Lemma matchhere_literal lit s :
  forallb literal lit = true →
  matchhere (lit ++ [DOT; STAR]) s = has_prefix lit s.
Proof.
  revert s. induction lit as [|c lit IH]; intros s Hlit.
  { by rewrite matchhere_dot_star, has_prefix_nil. }
  simpl in Hlit. apply andb_true_iff in Hlit as [Hc Hlit].
  unfold literal in Hc.
  apply andb_true_iff in Hc as [[Hd Hs]%andb_true_iff Hcaret].
  apply negb_true_iff in Hd.
  assert (∃ q re2, lit ++ [DOT; STAR] = q :: re2 ∧ (q =? STAR) = false)
    as (q & re2 & Hre & Hq).
  { destruct lit as [|q lit]; [by exists DOT, [STAR]|].
    exists q, (lit ++ [DOT; STAR]). split; [done|].
    simpl in Hlit. apply andb_true_iff in Hlit as [Hq _]. unfold literal in Hq.
    apply andb_true_iff in Hq as [[_ Hq%negb_true_iff]%andb_true_iff _].
    done. }
  change ((c :: lit) ++ [DOT; STAR]) with (c :: (lit ++ [DOT; STAR])).
  rewrite Hre, matchhere_single by done. rewrite <-Hre.
  destruct s as [|x s]; [by rewrite has_prefix_cons_nil|].
  rewrite has_prefix_cons, IH by done. unfold re_char. by rewrite Hd.
Qed.

Lemma re_match_literal lit s :
  forallb literal lit = true →
  re_match (CARET :: lit ++ [DOT; STAR]) s = has_prefix lit s.
Proof. intros Hlit. simpl. by apply matchhere_literal. Qed.

(** Two prefixes of one text: one is a prefix of the other. *)
Lemma has_prefix_compatible p1 p2 s :
  has_prefix p1 s = true → has_prefix p2 s = true →
  has_prefix p1 p2 || has_prefix p2 p1 = true.
Proof.
  revert p2 s. induction p1 as [|c p1 IH]; intros p2 s H1 H2.
  { by rewrite has_prefix_nil. }
  destruct p2 as [|d p2]; [by rewrite has_prefix_nil, orb_true_r|].
  destruct s as [|x s]; [by rewrite has_prefix_cons_nil in H1|].
  rewrite has_prefix_cons in H1, H2.
  apply andb_true_iff in H1 as [Hc H1], H2 as [Hd H2].
  apply N.eqb_eq in Hc, Hd. subst. rewrite !has_prefix_cons, N.eqb_refl.
  simpl. by eapply IH.
Qed.

Lemma BUILTIN_SERVICES_well_formed :
  well_formed_services BUILTIN_SERVICES = true.
Proof. vm_compute. reflexivity. Qed.

Lemma well_formed_services_spec services :
  well_formed_services services = true →
  (∀ s key, s ∈ services →
            re_match (service_keyPattern s) key
            = has_prefix (pattern_prefix (service_keyPattern s)) key)
  ∧ (∀ s, s ∈ services → service_name s ≠ py "Unknown")
  ∧ (∀ s1 s2 key, s1 ∈ services → s2 ∈ services →
       service_name s1 = service_name s2
       ∨ (has_prefix (pattern_prefix (service_keyPattern s1)) key = true
          ∧ has_prefix (pattern_prefix (service_keyPattern s2)) key = true) →
       service_name s1 = service_name s2
       ∧ service_keyPattern s1 = service_keyPattern s2).
Proof.
  unfold well_formed_services. rewrite andb_true_iff, !forallb_forall.
  intros [Ha Hb].
  assert (∀ s, s ∈ services →
            service_keyPattern s
            = CARET :: pattern_prefix (service_keyPattern s) ++ [DOT; STAR]
            ∧ forallb literal (pattern_prefix (service_keyPattern s)) = true
            ∧ service_name s ≠ py "Unknown") as Ha'.
  { intros s Hs%list_elem_of_In. specialize (Ha s Hs).
    apply andb_true_iff in Ha as [[Hp Hl]%andb_true_iff Hn].
    apply bool_decide_eq_true in Hp. apply negb_true_iff in Hn.
    by apply bool_decide_eq_false in Hn. }
  split_and!.
  - intros s key Hs. destruct (Ha' s Hs) as (Hp & Hl & _).
    rewrite Hp at 1. by apply re_match_literal.
  - intros s Hs. by destruct (Ha' s Hs) as (_ & _ & ?).
  - intros s1 s2 key Hs1%list_elem_of_In Hs2%list_elem_of_In Hor.
    specialize (Hb s1 Hs1). rewrite forallb_forall in Hb.
    specialize (Hb s2 Hs2).
    apply orb_true_iff in Hb as [Heq|Hb].
    { apply andb_true_iff in Heq as [H1 H2].
      by apply bool_decide_eq_true in H1, H2. }
    apply andb_true_iff in Hb as [Hn Hp]. apply negb_true_iff in Hn, Hp.
    apply bool_decide_eq_false in Hn. destruct Hor as [?|[H1 H2]]; [done|].
    by rewrite (has_prefix_compatible _ _ key H1 H2) in Hp.
Qed.

(** What the service loop returns is ["Unknown"] or the name of an entry
    whose pattern matches. *)
Lemma detect_service_in_result services key :
  detect_service_in services key = py "Unknown"
  ∨ ∃ s, s ∈ services
         ∧ detect_service_in services key = service_name s
         ∧ re_match (service_keyPattern s) key = true.
Proof.
  induction services as [|x l IH]; simpl; [by left|].
  destruct (re_match (service_keyPattern x) key) eqn:Hx.
  - right. exists x. split_and!; [by left|done..].
  - destruct IH as [?|(s & Hs & Hd & Hm)]; [by left|].
    right. exists s. split_and!; [by right|done..].
Qed.

Lemma detect_service_in_none services key :
  (∀ s, s ∈ services → re_match (service_keyPattern s) key = false) →
  detect_service_in services key = py "Unknown".
Proof.
  induction services as [|x l IH]; simpl; [done|]. intros H.
  rewrite (H x) by (by left). apply IH. intros s Hs. apply H. by right.
Qed.

(** In a well-formed table the loop returns the name of an entry exactly
    for the keys that begin with its literal text. *)
Lemma detect_service_in_prefix services key s :
  well_formed_services services = true → s ∈ services →
  detect_service_in services key = service_name s
  ↔ has_prefix (pattern_prefix (service_keyPattern s)) key = true.
Proof.
  intros (Hmatch & Hunknown & Hsame)%well_formed_services_spec Hs.
  split.
  - intros Hd.
    destruct (detect_service_in_result services key)
      as [Hu|(s' & Hs' & Hd' & Hm)].
    + rewrite Hu in Hd. by destruct (Hunknown s Hs).
    + rewrite Hmatch in Hm by done.
      destruct (Hsame s' s key) as [_ <-]; try done. left. congruence.
  - intros Hp. clear Hunknown.
    induction services as [|x l IH]; [by apply elem_of_nil in Hs|].
    simpl. rewrite Hmatch by (by left).
    destruct (has_prefix (pattern_prefix (service_keyPattern x)) key) eqn:Hx.
    + apply (Hsame x s key); [by left|done|]. by right.
    + apply elem_of_cons in Hs as [->|Hs]; [congruence|].
      apply IH; [| |done].
      * intros s0 k Hs0. apply Hmatch. by right.
      * intros s1 s2 k H1 H2. apply Hsame; by right.
Qed.

(** ** When [gpg] fails *)

Lemma encrypt_gpg_data_creatable gpg config w data path :
  creatable (encrypt_gpg_data gpg config w data path).2 = creatable w.
Proof.
  unfold encrypt_gpg_data.
  repeat match goal with |- context [if ?b then _ else _] =>
           destruct b; [done|] end.
  destruct (gpg_symmetric gpg _ data); [|done].
  by destruct (can_open _ _ _).
Qed.

Lemma encrypt_gpg_data_fails gpg config w data path :
  gpg_symmetric gpg (preset_passphrase config) data = None →
  (encrypt_gpg_data gpg config w data path).1 = false
  ∧ files (encrypt_gpg_data gpg config w data path).2 = files w.
Proof.
  intros Hfail. unfold encrypt_gpg_data.
  repeat match goal with |- context [if ?b then _ else _] =>
           destruct b; [done|] end.
  by rewrite Hfail.
Qed.

(** ** The layout of the configuration directory *)

Lemma path_join_after_ak base x :
  startswith SLASH x = false →
  path_join (base ++ py "ak") x = (base ++ py "ak") ++ SLASH :: x.
Proof.
  intros Hx. unfold path_join, endswith. rewrite Hx, rev_app_distr.
  by rewrite bool_decide_eq_false_2 by (by destruct base).
Qed.

Lemma path_join_ak d : ∃ base, path_join d (py "ak") = base ++ py "ak".
Proof.
  unfold path_join. simpl startswith. cbv iota.
  destruct (bool_decide (d = []) || endswith SLASH d).
  - by exists d.
  - exists (d ++ [SLASH]). by rewrite <-app_assoc.
Qed.

Lemma _get_config_dir_ak p : ∃ base, _get_config_dir p = base ++ py "ak".
Proof.
  unfold _get_config_dir.
  destruct (environ p !! py "XDG_CONFIG_HOME") as [[|c xdg]|];
    apply path_join_ak.
Qed.

(** * Further properties, by entry *)

(** X1: whatever the store holds, every key that [load_profile_keys]
    returns is a plain key, and every value is a text that can be encoded
    again. *)
Theorem X1_loaded_mapping_well_formed (gpg : GPG) (config : AKConfig)
    (w : World) (name : text) :
  map_Forall (λ key value, plain_key key = true ∧ encodable value = true)
    (load_profile_keys gpg config w name).1.
Proof. apply load_profile_keys_well_formed. Qed.

(** X2: what [load_profile_keys] returns can always be encoded by the
    line construction of [save_profile_keys], and the text so made decodes
    to the same mapping. *)
Theorem X2_loaded_mapping_reencodes (gpg : GPG) (config : AKConfig)
    (w : World) (name : text) :
  ∃ data,
    encode_contents (load_profile_keys gpg config w name).1 = Some data
    ∧ decode_contents data = (load_profile_keys gpg config w name).1.
Proof.
  pose proof (load_profile_keys_well_formed gpg config w name) as H.
  destruct (encode_contents_Some (load_profile_keys gpg config w name).1)
    as [data Hdata].
  { eapply map_Forall_impl; [exact H|]. by intros ?? [_ ?]. }
  exists data. split; [done|]. apply decode_encode_contents; [|done].
  eapply map_Forall_impl; [exact H|]. by intros ?? [? _].
Qed.

(** X3: without [gpg] (not available, or switched off) and for a valid
    profile name, saving a mapping whose keys are plain, free of carriage
    returns and encodable and whose values are encodable succeeds, starts
    no subprocess, changes no file of the profiles directory but the plain
    contents file of the profile, and loading the profile afterwards
    returns the mapping. *)
Theorem X3_plain_save_then_load (gpg : GPG) (config : AKConfig) (w : World)
    (name : text) (keys : gmap text text) :
  plain_mode config = true →
  valid_profile_name name = true →
  map_Forall (λ key value, storable key value) keys →
  let w' := (save_profile_keys gpg config w name keys).2 in
  (save_profile_keys gpg config w name keys).1 = true
  ∧ calls w' = calls w
  ∧ (∀ path, in_profiles_dir config path = true →
       path ≠ profile_keys_plain_path config name →
       files w' !! path = files w !! path)
  ∧ (load_profile_keys gpg config w' name).1 = keys.
Proof.
  intros Hplain Hname Hkeys w'.
  destruct (valid_profile_name_spec config w name Hname) as [_ Hopen].
  destruct (save_profile_keys_plain_storable gpg config Hplain w name keys)
    as (data & Hdata & Hu & Hsave); [|done|].
  { apply Hopen, artifacts_elems. }
  unfold w'. rewrite Hsave. simpl. split_and!; try done.
  - intros path _ Hpath. by rewrite lookup_insert_ne.
  - apply load_after_plain_write; try done.
    eapply map_Forall_impl; [exact Hkeys|]. by intros ?? [? _].
Qed.

Lemma X3_plain_save_then_load_witness :
  (load_profile_keys sample_gpg sample_config_plain
     (save_profile_keys sample_gpg sample_config_plain plain_world
        (py "work")
        {[ py "OPENAI_KEY" := py "abc123"; py "GITHUB_TOKEN" := py "x y" ]}).2
     (py "work")).1
  = {[ py "OPENAI_KEY" := py "abc123"; py "GITHUB_TOKEN" := py "x y" ]}.
Proof.
  destruct (X3_plain_save_then_load sample_gpg sample_config_plain
              plain_world (py "work")
              {[ py "OPENAI_KEY" := py "abc123";
                 py "GITHUB_TOKEN" := py "x y" ]}) as (_ & _ & _ & H).
  - vm_compute. reflexivity.
  - vm_compute. reflexivity.
  - apply map_Forall_insert_2; [|apply map_Forall_singleton];
      (split_and!; [vm_compute; reflexivity
                   |apply (bool_decide_unpack _); vm_compute; exact I
                   |vm_compute; reflexivity|vm_compute; reflexivity]).
  - exact H.
Defined.

(** X4: with [gpg] in use, a passphrase that can be written to the
    passphrase file, a valid profile name and a path of the encrypted
    contents file without NUL, saving a mapping that is not empty, with
    plain, encodable keys free of carriage returns and encodable values,
    when [gpg] encrypts the text and decrypts its own output, writes the
    encrypted contents file only, and loading the profile afterwards
    returns the mapping, whatever the plain contents file holds. *)
Theorem X4_encrypted_save_then_load (gpg : GPG) (config : AKConfig)
    (w : World) (name : text) (keys : gmap text text) (data cipher : text) :
  plain_mode config = false →
  encodable (preset_passphrase config) = true →
  valid_profile_name name = true →
  (NUL ∉ profile_keys_path config name) →
  keys ≠ ∅ →
  map_Forall (λ key value, storable key value) keys →
  encode_contents keys = Some data →
  gpg_symmetric gpg (preset_passphrase config) data = Some cipher →
  gpg_decrypt gpg (preset_passphrase config) cipher = Some data →
  let w' := (save_profile_keys gpg config w name keys).2 in
  (save_profile_keys gpg config w name keys).1 = true
  ∧ files w' = <[profile_keys_path config name := cipher]> (files w)
  ∧ (load_profile_keys gpg config w' name).1 = keys.
Proof.
  intros Hmode Hpass Hname Hnul Hne Hkeys Hdata Hsym Hdec w'.
  destruct (valid_profile_name_spec config w name Hname) as [_ Hopen].
  destruct (save_then_load_encrypted gpg config Hmode Hpass w name keys data
              cipher Hnul (Hopen _ (proj1 (proj2 (artifacts_elems _ _))))
              Hne Hkeys Hdata Hsym Hdec) as [Hsave Hload].
  unfold w'. split_and!; [by rewrite Hsave|by rewrite Hsave|done].
Qed.

Lemma X4_encrypted_save_then_load_witness :
  (load_profile_keys sample_gpg sample_config
     (save_profile_keys sample_gpg sample_config plain_world (py "default")
        {[ py "K2" := py "v2" ]}).2 (py "default")).1
  = {[ py "K2" := py "v2" ]}.
Proof.
  destruct (X4_encrypted_save_then_load sample_gpg sample_config plain_world
              (py "default") {[ py "K2" := py "v2" ]}
              (py "K2=djI=" ++ [LF]) (0 :: py "K2=djI=" ++ [LF]))
    as (_ & _ & H).
  - vm_compute. reflexivity.
  - vm_compute. reflexivity.
  - vm_compute. reflexivity.
  - apply (bool_decide_unpack _). vm_compute. exact I.
  - intros He. apply (f_equal (λ m : gmap text text, m !! py "K2")) in He.
    vm_compute in He. discriminate.
  - apply map_Forall_singleton.
    split_and!; [vm_compute; reflexivity
                |apply (bool_decide_unpack _); vm_compute; exact I
                |vm_compute; reflexivity..].
  - vm_compute. reflexivity.
  - vm_compute. reflexivity.
  - vm_compute. reflexivity.
  - exact H.
Defined.

(** X5: without [gpg], no sequence of operations of the profile store
    starts a subprocess. *)
Theorem X5_plain_mode_starts_no_subprocess (gpg : GPG) (config : AKConfig)
    (w : World) (ops : list op) :
  plain_mode config = true → calls (run gpg config w ops) = calls w.
Proof. intros Hplain. by apply run_calls_plain. Qed.

Lemma X5_plain_mode_witness :
  calls (run sample_gpg sample_config_plain plain_world
           [AddKey (py "work") (key_request (py "K") (py "v"));
            LoadKeys (py "work"); DeleteKey (py "work") (py "K")]) = [].
Proof.
  rewrite (X5_plain_mode_starts_no_subprocess sample_gpg sample_config_plain).
  - vm_compute. reflexivity.
  - vm_compute. reflexivity.
Defined.



(** X7: updating a key without [gpg] stores it whether or not the key was
    there.  For a valid profile name, when the plain contents file holds
    encodable text and the key and value can be stored,
    [update_profile_key] answers 200, the profile afterwards loads the
    former mapping with the key bound to the value, and no file of the
    profiles directory but the plain contents file has changed: a key that
    was missing is stored without being added to the name list. *)
Theorem X7_update_key_upserts (gpg : GPG) (config : AKConfig) (w : World)
    (profile key value : text) (data : KeyRequest) :
  plain_mode config = true →
  valid_profile_name profile = true →
  text_file w (profile_keys_plain_path config profile) = true →
  storable key value →
  req_value data = Some value →
  let r := update_profile_key gpg config w profile key data in
  status r.1 = 200
  ∧ (load_profile_keys gpg config r.2 profile).1
    = <[key := value]> (load_profile_keys gpg config w profile).1
  ∧ (∀ path, in_profiles_dir config path = true →
       path ≠ profile_keys_plain_path config profile →
       files r.2 !! path = files w !! path)
  ∧ read_profile config r.2 profile = read_profile config w profile.
Proof.
  intros Hplain Hname Hfile Hkey Hvalue r.
  destruct (valid_profile_name_spec config w profile Hname) as [_ Hopen].
  destruct (load_change_save gpg config Hplain w profile
              (insert key value)) as (text & Hsave & Hload); [|done|..].
  { apply Hopen, artifacts_elems. }
  { intros keys Hkeys. by apply map_Forall_insert_2. }
  unfold r, update_profile_key. rewrite Hvalue.
  destruct (load_profile_keys gpg config w profile) as [keys w1].
  simpl in Hsave, Hload. rewrite Hsave. simpl.
  assert (∀ path, path ≠ profile_keys_plain_path config profile →
            <[profile_keys_plain_path config profile := text]> (files w)
              !! path = files w !! path) as Hframe.
  { intros path Hpath. by rewrite lookup_insert_ne. }
  split_and!; [done| |intros path _; apply Hframe|].
  - apply Hload. simpl. by rewrite lookup_insert_eq.
  - apply read_profile_frame. simpl. apply Hframe.
    apply name_list_path_differs.
Qed.

Lemma X7_update_key_witness :
  let r := update_profile_key sample_gpg sample_config_plain plain_world
             (py "default") (py "NEW")
             {| req_name := None; req_value := Some (py "n") |} in
  (load_profile_keys sample_gpg sample_config_plain r.2 (py "default")).1
  = {[ py "K" := py "v"; py "NEW" := py "n" ]}
  ∧ read_profile sample_config_plain r.2 (py "default") = [py "K"].
Proof.
  destruct (X7_update_key_upserts sample_gpg sample_config_plain plain_world
              (py "default") (py "NEW") (py "n")
              {| req_name := None; req_value := Some (py "n") |})
    as (_ & Hl & _ & Hr).
  - vm_compute. reflexivity.
  - vm_compute. reflexivity.
  - vm_compute. reflexivity.
  - split_and!; [vm_compute; reflexivity
                |apply (bool_decide_unpack _); vm_compute; exact I
                |vm_compute; reflexivity..].
  - reflexivity.
  - split.
    + rewrite Hl. apply (bool_decide_unpack _). vm_compute. exact I.
    + rewrite Hr. vm_compute. reflexivity.
Defined.

(** X8: adding a key without [gpg].  For a valid profile name, when the
    plain contents file and the name list hold encodable text, the key name
    is plain and can be listed and the value is encodable,
    [add_profile_key] answers 200, the profile afterwards loads the former
    mapping with the key bound to the value, and the name list afterwards
    holds the former names and the key. *)
Theorem X8_add_key_stores_and_lists (gpg : GPG) (config : AKConfig)
    (w : World) (profile key value : text) :
  plain_mode config = true →
  valid_profile_name profile = true →
  text_file w (profile_keys_plain_path config profile) = true →
  text_file w (profile_path config profile) = true →
  plain_key key = true → listable key = true → encodable value = true →
  let r := add_profile_key gpg config w profile (key_request key value) in
  status r.1 = 200
  ∧ (load_profile_keys gpg config r.2 profile).1
    = <[key := value]> (load_profile_keys gpg config w profile).1
  ∧ ∀ k, k ∈ read_profile config r.2 profile
         ↔ k ∈ read_profile config w profile ∨ k = key.
Proof.
  intros Hplain Hname Hfile Hlist Hpk Hlk Hvalue r.
  pose proof Hlk as (_ & _ & _ & Hcr & Hek)%listable_spec.
  destruct (valid_profile_name_spec config w profile Hname) as [_ Hopen].
  destruct (load_change_save gpg config Hplain w profile
              (insert key value)) as (text & Hsave & Hload); [|done|..].
  { apply Hopen, artifacts_elems. }
  { intros keys Hkeys. by apply map_Forall_insert_2. }
  unfold r, add_profile_key, key_request. simpl.
  destruct (load_profile_keys gpg config w profile) as [keys w1].
  simpl in Hsave, Hload. rewrite Hsave.
  destruct (name_list_path_differs config profile) as [_ Hne].
  set (w2 := set_file (profile_keys_plain_path config profile) text w).
  assert (files w2 !! profile_path config profile
          = files w !! profile_path config profile) as Hsame.
  { simpl. by rewrite lookup_insert_ne. }
  rewrite (read_profile_frame config w2 w profile Hsame).
  case_bool_decide as Hin; simpl.
  - split_and!; [done| |].
    + apply Hload. simpl. by rewrite lookup_insert_eq.
    + intros k. rewrite (read_profile_frame config w2 w profile Hsame).
      split; [by left|]. by intros [?| ->].
  - assert (Forall (λ k, listable k = true)
              (read_profile config w profile ++ [key])) as Hnames.
    { apply Forall_app. split; [by apply read_profile_listable, text_file_spec|].
      by apply Forall_singleton. }
    destruct (valid_profile_name_spec config w2 profile Hname) as [_ Hopen2].
    destruct (write_profile_listable config w2 profile _
                (Hopen2 _ (proj1 (artifacts_elems _ _))) Hnames)
      as [Hwrite Hread].
    split_and!; [done| |].
    + apply Hload. rewrite Hwrite. simpl.
      rewrite lookup_insert_ne by done. by rewrite lookup_insert_eq.
    + intros k. rewrite Hread.
      destruct (unique_keys_spec (read_profile config w profile ++ [key]))
        as (_ & _ & Hk).
      rewrite Hk, elem_of_app, list_elem_of_singleton. done.
Qed.

Lemma X8_add_key_witness :
  let r := add_profile_key sample_gpg sample_config_plain plain_world
             (py "default") (key_request (py "A") (py "x")) in
  (load_profile_keys sample_gpg sample_config_plain r.2 (py "default")).1
  = {[ py "K" := py "v"; py "A" := py "x" ]}
  ∧ py "A" ∈ read_profile sample_config_plain r.2 (py "default").
Proof.
  destruct (X8_add_key_stores_and_lists sample_gpg sample_config_plain
              plain_world (py "default") (py "A") (py "x"))
    as (_ & Hl & Hr).
  - vm_compute. reflexivity.
  - vm_compute. reflexivity.
  - vm_compute. reflexivity.
  - vm_compute. reflexivity.
  - vm_compute. reflexivity.
  - vm_compute. reflexivity.
  - vm_compute. reflexivity.
  - split.
    + rewrite Hl. apply (bool_decide_unpack _). vm_compute. exact I.
    + apply Hr. by right.
Defined.

(** X9: deleting a stored key without [gpg].  When the plain contents file
    and the name list hold encodable text and the key is in the loaded
    mapping, [delete_profile_key] answers 200, the profile afterwards loads
    the former mapping without the key, and the name list afterwards holds
    the former names with the first occurrence of the key removed: the key
    is no longer listed when the name list held no name twice. *)
Theorem X9_delete_key_removes (gpg : GPG) (config : AKConfig) (w : World)
    (profile key : text) :
  plain_mode config = true →
  text_file w (profile_keys_plain_path config profile) = true →
  text_file w (profile_path config profile) = true →
  is_Some ((load_profile_keys gpg config w profile).1 !! key) →
  let r := delete_profile_key gpg config w profile key in
  status r.1 = 200
  ∧ (load_profile_keys gpg config r.2 profile).1
    = delete key (load_profile_keys gpg config w profile).1
  ∧ (∀ k, k ∈ read_profile config r.2 profile
          ↔ k ∈ list_remove key (read_profile config w profile))
  ∧ (NoDup (read_profile config w profile) →
     key ∉ read_profile config r.2 profile).
Proof.
  intros Hplain Hfile Hlist Hkey r.
  destruct (load_change_save gpg config Hplain w profile
              (delete key)) as (text & Hsave & Hload); [|done|..].
  { by eapply can_open_exists, loaded_key_file_exists. }
  { intros keys Hkeys. by apply map_Forall_delete. }
  unfold r, delete_profile_key.
  destruct (load_profile_keys gpg config w profile) as [keys w1].
  simpl in Hsave, Hload, Hkey. rewrite bool_decide_eq_true_2 by done.
  rewrite Hsave.
  destruct (name_list_path_differs config profile) as [_ Hne].
  set (w2 := set_file (profile_keys_plain_path config profile) text w).
  assert (files w2 !! profile_path config profile
          = files w !! profile_path config profile) as Hsame.
  { simpl. by rewrite lookup_insert_ne. }
  rewrite (read_profile_frame config w2 w profile Hsame).
  set (names := read_profile config w profile).
  cut ((load_profile_keys gpg config
          (if bool_decide (key ∈ names)
           then (write_profile config w2 profile (list_remove key names)).2
           else w2) profile).1 = delete key keys
       ∧ ∀ k, k ∈ read_profile config
                    (if bool_decide (key ∈ names)
                     then (write_profile config w2 profile
                             (list_remove key names)).2
                     else w2) profile
              ↔ k ∈ list_remove key names).
  { simpl. intros [Hl Hr]. split_and!; [done..|].
    intros Hnd. rewrite Hr. by apply list_remove_NoDup. }
  case_bool_decide as Hin.
  - assert (Forall (λ k, listable k = true) (list_remove key names))
      as Hnames.
    { apply Forall_forall. intros k Hk%elem_of_list_remove_1.
      rewrite text_file_spec in Hlist.
      pose proof (read_profile_listable config w profile Hlist) as Hall.
      rewrite Forall_forall in Hall. by apply Hall. }
    assert (can_open config w2 (profile_path config profile) = true)
      as Hopen.
    { apply can_open_exists. rewrite Hsame.
      by eapply read_profile_file_exists. }
    destruct (write_profile_listable config w2 profile _ Hopen Hnames)
      as [Hwrite Hread].
    split.
    + apply Hload. rewrite Hwrite. simpl.
      rewrite lookup_insert_ne by done. by rewrite lookup_insert_eq.
    + intros k. rewrite Hread.
      destruct (unique_keys_spec (list_remove key names)) as (_ & _ & Hk).
      by rewrite Hk.
  - split.
    + apply Hload. simpl. by rewrite lookup_insert_eq.
    + intros k. rewrite (read_profile_frame config w2 w profile Hsame).
      fold names. clear -Hin. induction names as [|y l IH]; simpl; [done|].
      apply not_elem_of_cons in Hin as [Hy Hl].
      rewrite bool_decide_eq_false_2 by done.
      rewrite !elem_of_cons. by rewrite IH.
Qed.

Lemma X9_delete_key_witness :
  let r := delete_profile_key sample_gpg sample_config_plain plain_world
             (py "default") (py "K") in
  (load_profile_keys sample_gpg sample_config_plain r.2 (py "default")).1 = ∅
  ∧ py "K" ∉ read_profile sample_config_plain r.2 (py "default").
Proof.
  destruct (X9_delete_key_removes sample_gpg sample_config_plain
              plain_world (py "default") (py "K"))
    as (_ & Hl & _ & Hr).
  - vm_compute. reflexivity.
  - vm_compute. reflexivity.
  - vm_compute. reflexivity.
  - apply (bool_decide_unpack _). vm_compute. exact I.
  - split.
    + rewrite Hl. apply (bool_decide_unpack _). vm_compute. exact I.
    + apply Hr. apply (bool_decide_unpack _). vm_compute. exact I.
Defined.






(** X13: the names read from a name list are clean.  Every name that
    [read_profile] returns is not empty and has no surrounding white space,
    line feed or carriage return; so, when the file holds encodable text
    and can be opened for writing, writing the names read back succeeds and
    reading again gives them in ascending order without repetition. *)
Theorem X13_read_names_clean (config : AKConfig) (w : World) (name : text) :
  text_file w (profile_path config name) = true →
  can_open config w (profile_path config name) = true →
  let names := read_profile config w name in
  Forall (λ key, key ≠ [] ∧ strip key = key ∧ (LF ∉ key) ∧ (CR ∉ key)) names
  ∧ (write_profile config w name names).1 = true
  ∧ read_profile config (write_profile config w name names).2 name
    = merge_sort text_le (elements (list_to_set names : gset text)).
Proof.
  intros Hfile Hopen names. split.
  - apply Forall_forall. intros key Hkey.
    by apply read_profile_names in Hkey as (? & ? & ? & ? & _).
  - rewrite text_file_spec in Hfile.
    destruct (write_profile_listable config w name names Hopen) as [Hw Hr].
    { by apply read_profile_listable. }
    split; [by rewrite Hw|done].
Qed.

Lemma X13_read_names_witness :
  read_profile sample_config
    (write_profile sample_config
       (set_file (profile_path sample_config (py "p"))
          (py "  b " ++ [CR; LF; LF] ++ py "a" ++ [LF] ++ py "b") empty_world)
       (py "p")
       (read_profile sample_config
          (set_file (profile_path sample_config (py "p"))
             (py "  b " ++ [CR; LF; LF] ++ py "a" ++ [LF] ++ py "b")
             empty_world) (py "p"))).2 (py "p")
  = [py "a"; py "b"].
Proof.
  destruct (X13_read_names_clean sample_config
              (set_file (profile_path sample_config (py "p"))
                 (py "  b " ++ [CR; LF; LF] ++ py "a" ++ [LF] ++ py "b")
                 empty_world) (py "p")) as (_ & _ & H).
  - vm_compute. reflexivity.
  - vm_compute. reflexivity.
  - rewrite H. vm_compute. reflexivity.
Defined.

(** X14: [get_profiles] reads and does not write.  Its answer has one
    entry for each listed profile, in the order of [list_profiles], with the
    number of keys that the profile loads and the default flag set for the
    name ["default"] only; every file is as before. *)
Theorem X14_get_profiles_reads (gpg : GPG) (config : AKConfig) (w : World) :
  (get_profiles gpg config w).1
  = (λ name,
       {| info_name := name;
          info_keyCount := size (load_profile_keys gpg config w name).1;
          info_isDefault := bool_decide (name = py "default") |})
    <$> list_profiles config w
  ∧ files (get_profiles gpg config w).2 = files w.
Proof.
  unfold get_profiles.
  destruct (get_profiles_loop_spec gpg config (list_profiles config w) w [])
    as [H1 H2].
  by rewrite H1, H2.
Qed.



(** X16: the service of a key is decided by how its name begins.  Every
    pattern of [BUILTIN_SERVICES] is ["^"], a literal text and [".*"], and
    the service shown for a key is that of the entry whose literal text the
    key name begins with, in upper case as written; it is ["Unknown"]
    exactly when the key name begins with none of them. *)
Theorem X16_service_by_prefix (key_name : text) :
  (∀ s, s ∈ BUILTIN_SERVICES →
        service_keyPattern s
        = CARET :: pattern_prefix (service_keyPattern s) ++ [DOT; STAR]
        ∧ (detect_service key_name = service_name s
           ↔ has_prefix (pattern_prefix (service_keyPattern s)) key_name
             = true))
  ∧ (detect_service key_name = py "Unknown"
     ↔ ∀ s, s ∈ BUILTIN_SERVICES →
            has_prefix (pattern_prefix (service_keyPattern s)) key_name
            = false).
Proof.
  pose proof BUILTIN_SERVICES_well_formed as Hwf.
  destruct (well_formed_services_spec _ Hwf) as (Hmatch & Hunknown & _).
  split.
  - intros s Hs. split; [|by apply detect_service_in_prefix].
    unfold well_formed_services in Hwf.
    apply andb_true_iff in Hwf as [Ha _]. rewrite forallb_forall in Ha.
    apply list_elem_of_In in Hs. specialize (Ha s Hs).
    apply andb_true_iff in Ha as [[Hp _]%andb_true_iff _].
    by apply bool_decide_eq_true in Hp.
  - unfold detect_service. split.
    + intros Hd s Hs.
      destruct (has_prefix (pattern_prefix (service_keyPattern s)) key_name)
        eqn:Hp; [|done].
      apply (detect_service_in_prefix _ _ _ Hwf Hs) in Hp.
      rewrite Hd in Hp. by destruct (Hunknown s Hs).
    + intros Hnone. apply detect_service_in_none. intros s Hs.
      rewrite Hmatch by done. by apply Hnone.
Qed.

Lemma X16_service_witness :
  detect_service (py "GITHUB_TOKEN") = py "GitHub"
  ∧ detect_service (py "github_token") = py "Unknown".
Proof.
  destruct (X16_service_by_prefix (py "GITHUB_TOKEN")) as [H1 _].
  destruct (X16_service_by_prefix (py "github_token")) as [_ H2].
  split.
  - apply (H1 {| service_name := py "GitHub"; service_isBuiltIn := true;
                 service_apiUrl := py "https://api.github.com";
                 service_keyPattern := py "^GITHUB_.*" |}).
    + by apply (list_elem_of_lookup_2 _ 2%nat).
    + vm_compute. reflexivity.
  - apply H2. intros s Hs.
    unfold BUILTIN_SERVICES in Hs. rewrite !elem_of_cons, elem_of_nil in Hs.
    destruct Hs as [->|[->|[->|[->|[->|[->|[->|[->|[->|[->|[]]]]]]]]]]];
      vm_compute; reflexivity.
Defined.

(** X17: when [gpg] does not encrypt, the keys are stored in plain text.
    If every run of [gpg --symmetric] fails, saving a mapping of storable
    keys and values fails without changing a file when the plain contents
    file cannot be opened.  For a valid profile name it reports success:
    the encoded text, in which only the values are base64-encoded, is
    written to the plain contents file and no other file of the profiles
    directory changes; when the profile has no encrypted contents file,
    loading it afterwards returns the mapping. *)
Theorem X17_failed_encryption_stores_plain (gpg : GPG) (config : AKConfig)
    (w : World) (name : text) (keys : gmap text text) :
  map_Forall (λ key value, storable key value) keys →
  (∀ data, gpg_symmetric gpg (preset_passphrase config) data = None) →
  let r := save_profile_keys gpg config w name keys in
  (can_open config w (profile_keys_plain_path config name) = false →
   r.1 = false ∧ files r.2 = files w)
  ∧ (valid_profile_name name = true →
     r.1 = true
     ∧ (∃ data, encode_contents keys = Some data
                ∧ files r.2 !! profile_keys_plain_path config name
                  = Some data)
     ∧ (∀ path, in_profiles_dir config path = true →
          path ≠ profile_keys_plain_path config name →
          files r.2 !! path = files w !! path)
     ∧ (files w !! profile_keys_path config name = None →
        (load_profile_keys gpg config r.2 name).1 = keys)).
Proof.
  intros Hkeys Hfail r.
  destruct (encode_contents_Some keys) as [data Hdata].
  { eapply map_Forall_impl; [exact Hkeys|]. by intros ?? (_&_&_&?). }
  destruct (encode_contents_storable keys data Hkeys Hdata) as [He Hu].
  destruct (encrypt_gpg_data_fails gpg config w data
              (profile_keys_path config name) (Hfail data)) as [Hr Hf].
  assert (∀ path, can_open config
                    (encrypt_gpg_data gpg config w data
                       (profile_keys_path config name)).2 path
                  = can_open config w path) as Hsame.
  { intros path. unfold can_open, exists_, can_create. rewrite Hf.
    by rewrite encrypt_gpg_data_creatable. }
  split.
  - intros Hclosed. unfold r, save_profile_keys. rewrite Hdata.
    specialize (Hsame (profile_keys_plain_path config name)).
    destruct (encrypt_gpg_data _ _ _ _ _) as [encrypted w1].
    simpl in Hr, Hf, Hsame. by rewrite Hr, Hsame, Hclosed.
  - intros Hname.
    destruct (valid_profile_name_spec config w name Hname) as [_ Hopen].
    assert (r = (true, set_file (profile_keys_plain_path config name) data
                         (encrypt_gpg_data gpg config w data
                            (profile_keys_path config name)).2)) as ->.
    { unfold r, save_profile_keys. rewrite Hdata.
      specialize (Hsame (profile_keys_plain_path config name)).
      destruct (encrypt_gpg_data _ _ _ _ _) as [encrypted w1].
      simpl in Hr, Hsame.
      rewrite Hr, Hsame, (Hopen _ (proj2 (proj2 (artifacts_elems _ _)))).
      simpl. by rewrite He. }
    simpl. rewrite Hf. split_and!.
    + done.
    + exists data. by rewrite lookup_insert_eq.
    + intros path _ Hpath. by rewrite lookup_insert_ne.
    + intros Habsent. rewrite load_profile_keys_resolution.
      unfold exists_, read_text. simpl. rewrite Hf.
      rewrite lookup_insert_ne
        by (intros Heq; by apply (keys_paths_differ config name)).
      rewrite Habsent, bool_decide_eq_false_2 by (by intros [? ?]).
      rewrite lookup_insert_eq. simpl. rewrite Hu.
      apply decode_encode_contents; [|done].
      eapply map_Forall_impl; [exact Hkeys|]. by intros ?? [? _].
Qed.

Lemma X17_failed_encryption_witness :
  let r := save_profile_keys failing_gpg sample_config empty_world
             (py "work") {[ py "K" := py "v" ]} in
  r.1 = true
  ∧ files r.2 !! profile_keys_plain_path sample_config (py "work")
    = Some (py "K=dg==" ++ [LF])
  ∧ (load_profile_keys failing_gpg sample_config r.2 (py "work")).1
    = {[ py "K" := py "v" ]}
  ∧ (save_profile_keys failing_gpg sample_config empty_world
       (py "nodir/work") {[ py "K" := py "v" ]}).1 = false.
Proof.
  destruct (X17_failed_encryption_stores_plain failing_gpg sample_config
              empty_world (py "work") {[ py "K" := py "v" ]})
    as (_ & H).
  { apply map_Forall_singleton.
    split_and!; [vm_compute; reflexivity
                |apply (bool_decide_unpack _); vm_compute; exact I
                |vm_compute; reflexivity..]. }
  { reflexivity. }
  destruct (X17_failed_encryption_stores_plain failing_gpg sample_config
              empty_world (py "nodir/work") {[ py "K" := py "v" ]})
    as (Hbad & _).
  { apply map_Forall_singleton.
    split_and!; [vm_compute; reflexivity
                |apply (bool_decide_unpack _); vm_compute; exact I
                |vm_compute; reflexivity..]. }
  { reflexivity. }
  destruct H as (Hs & (data & Hd & Hf) & _ & Hl); [vm_compute; reflexivity|].
  split_and!; [exact Hs| |apply Hl; reflexivity|].
  - rewrite Hf. f_equal. vm_compute in Hd. by injection Hd as <-.
  - apply Hbad. vm_compute. reflexivity.
Defined.

(** X18: the layout below the configuration directory.  Whatever the
    environment, the configuration directory built by [AKConfig.__init__]
    ends in ["ak"], the profiles directory, the persist directory and the
    vault file are that directory followed by one separator and their own
    names, and no file of a profile whose name does not begin with ["/"]
    is the vault file. *)
Theorem X18_config_layout (p : Process) (gpg : GPG) (w : World)
    (name : text) :
  startswith SLASH name = false →
  let config := (AKConfig_init p gpg w).1 in
  endswith_text (py "ak") (config_dir config) = true
  ∧ profiles_dir config = config_dir config ++ py "/profiles"
  ∧ persist_dir config = config_dir config ++ py "/persist"
  ∧ vault_path config = config_dir config ++ py "/keys.env.gpg"
  ∧ (vault_path config ∉ artifacts config name).
Proof.
  intros Hname config.
  destruct (_get_config_dir_ak p) as [base Hbase].
  assert (config_dir config = base ++ py "ak") as Hdir by done.
  assert (profiles_dir config = config_dir config ++ py "/profiles") as Hp.
  { rewrite Hdir. simpl. rewrite Hbase. by apply path_join_after_ak. }
  assert (vault_path config = config_dir config ++ py "/keys.env.gpg") as Hv.
  { rewrite Hdir. simpl. rewrite Hbase. by apply path_join_after_ak. }
  split_and!; [|done| |done|].
  - rewrite Hdir. unfold endswith_text. rewrite rev_app_distr.
    apply bool_decide_eq_true_2. by eexists.
  - rewrite Hdir. simpl. rewrite Hbase. by apply path_join_after_ak.
  - intros (suffix & Hs & Heq)%elem_of_artifacts.
    rewrite path_join_relative in Heq
      by (rewrite startswith_suffixed; [done|];
          unfold artifact_suffixes in Hs;
          rewrite !elem_of_cons, elem_of_nil in Hs;
          by destruct Hs as [->|[->|[->|[]]]]).
    unfold config in Heq at 2. rewrite profiles_dir_prefix in Heq.
    fold config in Heq. rewrite Hv, Hp, <-!app_assoc in Heq.
    apply app_inv_head in Heq. discriminate.
Qed.

Lemma X18_config_layout_witness :
  profiles_dir sample_config = py "/home/u/.config/ak/profiles"
  ∧ (vault_path sample_config ∉ artifacts sample_config (py "keys.env")).
Proof.
  destruct (X18_config_layout sample_process sample_gpg empty_world
              (py "keys.env")) as (_ & Hp & _ & _ & Hv).
  - reflexivity.
  - split; [|exact Hv]. etrans; [exact Hp|]. vm_compute. reflexivity.
Defined.
